(** * Exam generation and evaluation core of [src/app.py]

    A shallow embedding of the parts of [src/app.py] that the specification
    calls the core: the brace-slicing response parser, the structured branch of
    [generate_questions], [evaluate_exam_answers], and the submit handler of the
    Take Exam page; besides, the image-region helpers ([calculate_overlap],
    [remove_overlapping_regions], [classify_image_type]),
    [parse_generated_questions] and the placeholder loop of
    [generate_template_based_pdf], and the grade of the View Results page.

    Modelling conventions.
    - JSON values decoded by Python's [json.loads] are the inductive [json];
      integers and floats are kept apart ([JInt], [JFloat]) because Python's
      [str()] tells them apart.  Numbers are values in [Q]: an [int] exactly,
      a [float] by its binary64 value ([round_binary64] of the literal, and
      of [float()]); the product [total_marks * 0.6] of the fallback is
      rounded as in Python.  Sums, and the division of the percentage, are
      kept exact (not rounded).  Float literals beyond the float range, which
      Python reads as [inf], are not modelled.
    - Python dictionaries are association lists with distinct keys, in
      insertion order (the order in which Python iterates them).
    - The Python runtime primitives that are not worth re-implementing
      ([json.loads], [str()] of a decoded value, [float()] of a string) are the
      fields of a record [Runtime]; every theorem is stated for an arbitrary
      runtime.  [demo_rt] is a concrete runtime used for concrete runs.
    - Exceptions: [evaluate_exam_answers] catches every exception in an outer
      [try] and returns [None]; an inner [try] around the model call catches
      [json.JSONDecodeError] (a subclass of [ValueError]), [KeyError] and
      [ValueError] only.  Code paths whose every exception ends in the outer
      handler are modelled in [option]; the inner try is modelled with [exn]. *)

From Stdlib Require Import String Ascii List Bool ZArith QArith Qpower Qabs Lia Lqa Psatz.
Import ListNotations.
Open Scope string_scope.
Set Warnings "-register-all".

(* ================================================================== *)
(** ** Python values *)

Inductive json : Type :=
| JNull
| JBool (b : bool)
| JInt (z : Z)
| JFloat (q : Q)        (* a number literal with a fraction, of exact value [q] *)
| JStr (s : string)
| JArr (l : list json)
| JObj (kvs : list (string * json)).

(** Python exceptions that matter for the handlers of the source. *)
Inductive exn : Type :=
| KeyError
| ValueError
| TypeError
| AttributeError
| OtherError.

(** [d.get(k)] on a dict with distinct keys. *)
Fixpoint dict_lookup {A} (k : string) (kvs : list (string * A)) : option A :=
  match kvs with
  | [] => None
  | (k', v) :: rest => if String.eqb k k' then Some v else dict_lookup k rest
  end.

(** [d[k] = v]: replace in place, or append a new key (Python dict order). *)
Fixpoint dict_set {A} (k : string) (v : A) (kvs : list (string * A))
  : list (string * A) :=
  match kvs with
  | [] => [(k, v)]
  | (k', v') :: rest =>
      if String.eqb k k' then (k', v) :: rest else (k', v') :: dict_set k v rest
  end.

(** [d.get(k, default)] *)
Definition dict_get {A} (kvs : list (string * A)) (k : string) (dflt : A) : A :=
  match dict_lookup k kvs with Some v => v | None => dflt end.

(** [x[k]] for a string key: a dict raises [KeyError] on a missing key, every
    other JSON value raises [TypeError]; both end in the same handler, so the
    failure is [None]. *)
Definition py_index (x : json) (k : string) : option json :=
  match x with
  | JObj kvs => dict_lookup k kvs
  | _ => None
  end.

(** [for x in v]: lists yield their items, dicts their keys, strings their
    characters; numbers, booleans and [None] are not iterable. *)
Definition py_iter (v : json) : option (list json) :=
  match v with
  | JArr l => Some l
  | JObj kvs => Some (map (fun kv => JStr (fst kv)) kvs)
  | JStr s => Some (map (fun c => JStr (String c EmptyString)) (list_ascii_of_string s))
  | _ => None
  end.

(* ================================================================== *)
(** ** Python floats (IEEE 754 binary64)

    A float is held by its exact value in [Q].  [round_binary64 x] is the
    binary64 number nearest to [x], ties to even (53-bit significand, least
    exponent -1074 for the subnormals); the exponent is not bounded above, so
    the values beyond the float range, where Python has [inf] or raises
    [OverflowError], are found by [to_float] only. *)

(** Round [a / b] ([b > 0]) to the nearest integer, ties to even. *)
Definition rne_div (a b : Z) : Z :=
  let q := (a / b)%Z in
  let r := (a mod b)%Z in
  match Z.compare (2 * r) b with
  | Lt => q
  | Gt => (q + 1)%Z
  | Eq => if Z.even q then q else (q + 1)%Z
  end.

(** [floor(log2 x)] for [x > 0]. *)
Definition Qlog2_floor (x : Q) : Z :=
  let k := (Z.log2 (Qnum x) - Z.log2 (Zpos (Qden x)))%Z in
  if Qle_bool (2 ^ k) x then k else (k - 1)%Z.

(** The exponent of the last significand bit of the binary64 numbers around
    [x > 0]: [x] lies in [[2^(e+52), 2^(e+53))], or [e = -1074]. *)
Definition binary64_exp (x : Q) : Z := Z.max (-1074) (Qlog2_floor x - 52).

Definition round_pos (x : Q) : Q :=
  let e := binary64_exp x in
  let m := x * 2 ^ (- e) in
  inject_Z (rne_div (Qnum m) (Zpos (Qden m))) * 2 ^ e.

Definition round_binary64 (x : Q) : Q :=
  match Qcompare x 0 with
  | Eq => 0
  | Gt => round_pos x
  | Lt => - round_pos (- x)
  end.

(** [float(x)] of an [int]: [OverflowError] ([None]) when the rounded value
    is out of the float range. *)
Definition to_float (x : Q) : option Q :=
  let r := round_binary64 x in
  if Qle_bool (2 ^ 1024) (Qabs r) then None else Some r.

(** The float literal [0.6]. *)
Definition py_0_6 : Q := round_binary64 (6 # 10).

(** [a * b] for an [int] or [float] [a] and a float [b]: [a] is converted to
    a float, and the product is rounded. *)
Definition py_float_mul (a b : Q) : option Q :=
  match to_float a with
  | Some u => Some (round_binary64 (u * b))
  | None => None
  end.

(** Numeric value of an operand of [+] / [*] ([bool] is a subclass of [int]);
    a float literal stands for the nearest binary64 number. *)
Definition py_num (v : json) : option Q :=
  match v with
  | JInt z => Some (inject_Z z)
  | JFloat q => Some (round_binary64 q)
  | JBool b => Some (if b then 1 else 0)%Q
  | _ => None
  end.

(** Python [==] between two decoded JSON values: numbers (and booleans)
    compare by value, strings by contents, lists element-wise, dicts by their
    key sets and values. *)
Fixpoint py_eq (x y : json) {struct x} : bool :=
  match x, y with
  | JNull, JNull => true
  | JStr a, JStr b => String.eqb a b
  | JArr l1, JArr l2 =>
      (fix go (l1 l2 : list json) : bool :=
         match l1, l2 with
         | [], [] => true
         | a :: r1, b :: r2 => py_eq a b && go r1 r2
         | _, _ => false
         end) l1 l2
  | JObj m1, JObj m2 =>
      Nat.eqb (length m1) (length m2) &&
      (fix go (m : list (string * json)) : bool :=
         match m with
         | [] => true
         | (k, v) :: r =>
             match dict_lookup k m2 with
             | Some w => py_eq v w && go r
             | None => false
             end
         end) m1
  | _, _ =>
      match py_num x, py_num y with
      | Some a, Some b => Qeq_bool a b
      | _, _ => false
      end
  end.

(* ================================================================== *)
(** ** Python strings (ASCII) *)

(** [str.isspace] on the ASCII range: space, \t \n \x0b \x0c \r and \x1c-\x1f. *)
Definition is_py_space (c : ascii) : bool :=
  let n := nat_of_ascii c in
  Nat.eqb n 32 || (Nat.leb 9 n && Nat.leb n 13) || (Nat.leb 28 n && Nat.leb n 31).

Fixpoint drop_spaces (l : list ascii) : list ascii :=
  match l with
  | [] => []
  | c :: r => if is_py_space c then drop_spaces r else l
  end.

(** [s.strip()] *)
Definition strip (s : string) : string :=
  string_of_list_ascii
    (rev (drop_spaces (rev (drop_spaces (list_ascii_of_string s))))).

Definition upper_char (c : ascii) : ascii :=
  let n := nat_of_ascii c in
  if Nat.leb 97 n && Nat.leb n 122 then ascii_of_nat (n - 32) else c.

(** [s.upper()] *)
Definition upper (s : string) : string :=
  string_of_list_ascii (map upper_char (list_ascii_of_string s)).

(** [c in s] for a one-character [c] *)
Definition has_char (c : ascii) (s : string) : bool :=
  existsb (fun d => Ascii.eqb d c) (list_ascii_of_string s).

(** [s.find(c)] for a one-character [c] ([None] plays the role of [-1]). *)
Fixpoint find_char (c : ascii) (s : string) : option nat :=
  match s with
  | EmptyString => None
  | String d r =>
      if Ascii.eqb d c then Some 0%nat
      else option_map S (find_char c r)
  end.

(** [s.rfind(c)] *)
Fixpoint rfind_char (c : ascii) (s : string) : option nat :=
  match s with
  | EmptyString => None
  | String d r =>
      match rfind_char c r with
      | Some i => Some (S i)
      | None => if Ascii.eqb d c then Some 0%nat else None
      end
  end.

(** [s[a:b]] for [0 <= a] and [0 <= b]: empty when [b <= a]. *)
Definition py_slice (s : string) (a b : nat) : string := substring a (b - a) s.

(** [s.split(c)[0]] *)
Fixpoint split_head (c : ascii) (s : string) : string :=
  match s with
  | EmptyString => EmptyString
  | String d r => if Ascii.eqb d c then EmptyString else String d (split_head c r)
  end.

(** Truthiness of a string. *)
Definition str_truthy (s : string) : bool := negb (String.eqb s "").

(* ================================================================== *)
(** ** The Python runtime and the model collaborator *)

(** [json.loads] ([None] when it raises [JSONDecodeError]), [str()] of a
    decoded value, and [float()] of a string ([None] when it raises
    [ValueError]). *)
Record Runtime : Type := {
  rt_loads : string -> option json;
  rt_str : json -> string;
  rt_float_str : string -> option Q
}.

(** One call [model.generate_content(...)] followed by [.text]: the call may
    raise, or it may return a response whose [.text] accessor raises (the SDK
    raises [ValueError] when a response carries no text). *)
Inductive model_reply : Type :=
| Reply (text : string)
| CallRaises (e : exn)
| TextRaises (e : exn).

(* ================================================================== *)
(** ** Response parser (both call sites)

    [json_start = response_text.find('{')],
    [json_end = response_text.rfind('}') + 1],
    [json_text = response_text[json_start:json_end]]. *)

Definition brace_slice (response_text : string) : string :=
  let json_start := match find_char "{"%char response_text with Some i => i | None => 0%nat end in
  let json_end := match rfind_char "}"%char response_text with Some i => S i | None => 0%nat end in
  py_slice response_text json_start json_end.

Definition has_braces (response_text : string) : bool :=
  has_char "{"%char response_text && has_char "}"%char response_text.

(** The structured-data extraction of [generate_questions]: [None] when the
    text has no braces ([raise ValueError("No JSON found in response")]) or
    when [json.loads] raises [JSONDecodeError]; both land in the same
    [except (json.JSONDecodeError, ValueError)] handler. *)
Definition extract_json (rt : Runtime) (response_text : string) : option json :=
  if has_braces response_text then rt_loads rt (brace_slice response_text) else None.

(* ================================================================== *)
(** ** A concrete runtime for concrete runs

    [demo_loads] is a JSON decoder that agrees with Python's [json.loads] on
    documents without escape sequences and exponents (it rejects those);
    [demo_str] agrees with [str()] on integers, strings, booleans and [None];
    [demo_float_str] agrees with [float()] on optionally signed decimals. *)

Definition is_json_ws (c : ascii) : bool :=
  let n := nat_of_ascii c in
  Nat.eqb n 32 || Nat.eqb n 9 || Nat.eqb n 10 || Nat.eqb n 13.

Fixpoint skip_ws (l : list ascii) : list ascii :=
  match l with
  | c :: r => if is_json_ws c then skip_ws r else l
  | [] => []
  end.

Definition digit_val (c : ascii) : option Z :=
  let n := nat_of_ascii c in
  if Nat.leb 48 n && Nat.leb n 57 then Some (Z.of_nat (n - 48)) else None.

(** Reads a run of digits: value, number of digits, rest. *)
Fixpoint read_digits (l : list ascii) (acc : Z) (k : nat) : Z * nat * list ascii :=
  match l with
  | c :: r =>
      match digit_val c with
      | Some d => read_digits r (acc * 10 + d)%Z (S k)
      | None => (acc, k, l)
      end
  | [] => (acc, k, l)
  end.

Definition is_exp_char (l : list ascii) : bool :=
  match l with
  | c :: _ => Ascii.eqb c "e"%char || Ascii.eqb c "E"%char
  | [] => false
  end.

(** A JSON number (after an optional minus sign). *)
Definition read_number (neg : bool) (l : list ascii) : option (json * list ascii) :=
  match l with
  | c :: _ =>
      let '(ip, k, r) := read_digits l 0%Z 0 in
      if Nat.eqb k 0 || (Ascii.eqb c "0"%char && Nat.ltb 1 k) then None else
      let sgn (z : Z) := if neg then Z.opp z else z in
      match r with
      | "."%char :: r' =>
          let '(fp, k', r'') := read_digits r' 0%Z 0 in
          if Nat.eqb k' 0 || is_exp_char r'' then None else
          let den := (10 ^ Z.of_nat k')%Z in
          Some (JFloat (Qdiv (inject_Z (sgn (ip * den + fp)%Z)) (inject_Z den)), r'')
      | _ => if is_exp_char r then None else Some (JInt (sgn ip), r)
      end
  | [] => None
  end.

(** A string body up to the closing quote; escapes are not supported. *)
Fixpoint read_string (l : list ascii) (acc : list ascii) : option (string * list ascii) :=
  match l with
  | c :: r =>
      if Ascii.eqb c "034"%char then Some (string_of_list_ascii (rev acc), r)
      else if Ascii.eqb c "\"%char then None
      else read_string r (c :: acc)
  | [] => None
  end.

Fixpoint read_value (fuel : nat) (l : list ascii) {struct fuel} : option (json * list ascii) :=
  match fuel with
  | O => None
  | S f =>
      match skip_ws l with
      | "n"%char :: "u"%char :: "l"%char :: "l"%char :: r => Some (JNull, r)
      | "t"%char :: "r"%char :: "u"%char :: "e"%char :: r => Some (JBool true, r)
      | "f"%char :: "a"%char :: "l"%char :: "s"%char :: "e"%char :: r => Some (JBool false, r)
      | "034"%char :: r =>
          match read_string r [] with
          | Some (s, r') => Some (JStr s, r')
          | None => None
          end
      | "["%char :: r =>
          match skip_ws r with
          | "]"%char :: r' => Some (JArr [], r')
          | _ => read_items f r []
          end
      | "{"%char :: r =>
          match skip_ws r with
          | "}"%char :: r' => Some (JObj [], r')
          | _ => read_members f r []
          end
      | "-"%char :: r => read_number true r
      | r => read_number false r
      end
  end
with read_items (fuel : nat) (l : list ascii) (acc : list json) {struct fuel}
  : option (json * list ascii) :=
  match fuel with
  | O => None
  | S f =>
      match read_value f l with
      | Some (v, r) =>
          match skip_ws r with
          | ","%char :: r' => read_items f r' (acc ++ [v])
          | "]"%char :: r' => Some (JArr (acc ++ [v]), r')
          | _ => None
          end
      | None => None
      end
  end
with read_members (fuel : nat) (l : list ascii) (acc : list (string * json)) {struct fuel}
  : option (json * list ascii) :=
  match fuel with
  | O => None
  | S f =>
      match skip_ws l with
      | "034"%char :: r =>
          match read_string r [] with
          | Some (k, r1) =>
              match skip_ws r1 with
              | ":"%char :: r2 =>
                  match read_value f r2 with
                  | Some (v, r3) =>
                      match skip_ws r3 with
                      | ","%char :: r4 => read_members f r4 (dict_set k v acc)
                      | "}"%char :: r4 => Some (JObj (dict_set k v acc), r4)
                      | _ => None
                      end
                  | None => None
                  end
              | _ => None
              end
          | None => None
          end
      | _ => None
      end
  end.

Definition demo_loads (s : string) : option json :=
  let l := list_ascii_of_string s in
  match read_value (S (length l)) l with
  | Some (v, r) => match skip_ws r with [] => Some v | _ => None end
  | None => None
  end.

Fixpoint pos_digits (fuel : nat) (n : N) (acc : string) : string :=
  match fuel with
  | O => acc
  | S f =>
      let d := ascii_of_nat (48 + N.to_nat (N.modulo n 10)) in
      let n' := N.div n 10 in
      if N.eqb n' 0 then String d acc else pos_digits f n' (String d acc)
  end.

Definition z_to_decimal (z : Z) : string :=
  let s := pos_digits 64 (Z.to_N (Z.abs z)) EmptyString in
  if Z.ltb z 0 then String "-"%char s else s.

Definition demo_str (v : json) : string :=
  match v with
  | JInt z => z_to_decimal z
  | JStr s => s
  | JBool true => "True"
  | JBool false => "False"
  | JNull => "None"
  | JFloat _ => "<float>"
  | JArr _ => "<list>"
  | JObj _ => "<dict>"
  end.

Definition demo_float_str (s : string) : option Q :=
  match demo_loads (strip s) with
  | Some v =>
      match v with
      | JInt z => Some (round_binary64 (inject_Z z))
      | JFloat q => Some (round_binary64 q)
      | _ => None
      end
  | None => None
  end.

Definition demo_rt : Runtime :=
  {| rt_loads := demo_loads; rt_str := demo_str; rt_float_str := demo_float_str |}.

(** A question set: an MCQ (id 1, answer C, 1 mark) and a short question
    (id 2, 3 marks). *)
Definition demo_mcq : list (string * json) :=
  [("id", JInt 1); ("type", JStr "mcq"); ("question", JStr "Which force?");
   ("options", JArr [JStr "A) x"; JStr "B) y"; JStr "C) gravity"; JStr "D) z"]);
   ("correct_answer", JStr "C"); ("marks", JInt 1)].

Definition demo_short : list (string * json) :=
  [("id", JInt 2); ("type", JStr "short"); ("question", JStr "Why do things fall?");
   ("marks", JInt 3); ("sample_answer", JStr "gravity")].

Definition demo_qd : json := JObj [("questions", JArr [JObj demo_mcq; JObj demo_short])].

Definition demo_answers : list (string * string) :=
  [("1", "c"); ("2", "gravity pulls things")].

(** Model replies.  [jkey k] is the JSON string literal of [k]. *)
Definition dquote : string := String "034"%char EmptyString.

Definition jkey (k : string) : string := dquote ++ k ++ dquote.

(** [ok {"a": 1} }] *)
Definition demo_brace_text : string := "ok {" ++ jkey "a" ++ ": 1} }".

(** [Sure: {"title": "Quiz"}] *)
Definition demo_title_text : string :=
  "Sure: {" ++ jkey "title" ++ ": " ++ jkey "Quiz" ++ "}".

(** [{"evaluations": []}] *)
Definition demo_no_evaluations : string := "{" ++ jkey "evaluations" ++ ": []}".

(** [{"evaluations": [{"question_id": 2, "marks_obtained": 10}]}] *)
Definition demo_over_marks : string :=
  "{" ++ jkey "evaluations" ++ ": [{" ++ jkey "question_id" ++ ": 2, " ++
  jkey "marks_obtained" ++ ": 10}]}".

(** [{"evaluations": [{"question_id": 2, "marks_obtained": 2}, {"marks_obtained": 1}]}]:
    the second item has no [question_id]. *)
Definition demo_partial_reply : string :=
  "{" ++ jkey "evaluations" ++ ": [{" ++ jkey "question_id" ++ ": 2, " ++
  jkey "marks_obtained" ++ ": 2}, {" ++ jkey "marks_obtained" ++ ": 1}]}".

(* ================================================================== *)
(** ** [evaluate_exam_answers]

    An entry of [evaluation_data] is a Python dict; its optional keys are
    [option] fields.  [e_needs_ai] is [None] when the key is absent (MCQ with a
    correct answer), [Some true] while deferred and [Some false] once graded.
    [e_total_marks] is the numeric value of [question['marks']]. *)

Record entry : Type := {
  e_question_id : json;
  e_question : json;
  e_type : json;
  e_user_answer : string;
  e_correct_answer : option string;
  e_is_correct : option bool;
  e_sample_answer : option json;
  e_marks_obtained : option Q;
  e_total_marks : Q;
  e_needs_ai : option bool;
  e_feedback : option json;
  e_suggestions : option json
}.

(** The returned dict; the timestamp ([datetime.now()]) is not modelled. *)
Record eval_result : Type := {
  r_total_marks : Q;
  r_obtained_marks : Q;
  r_percentage : Q;
  r_evaluations : list entry
}.

(** [evaluation_data[i].update({...})] on the grading keys. *)
Definition graded (e : entry) (marks : Q) (feedback suggestions : json) : entry :=
  {| e_question_id := e_question_id e; e_question := e_question e;
     e_type := e_type e; e_user_answer := e_user_answer e;
     e_correct_answer := e_correct_answer e; e_is_correct := e_is_correct e;
     e_sample_answer := e_sample_answer e;
     e_marks_obtained := Some marks; e_total_marks := e_total_marks e;
     e_needs_ai := Some false;
     e_feedback := Some feedback; e_suggestions := Some suggestions |}.

(** [q.get('needs_ai_evaluation')] is truthy. *)
Definition deferred (e : entry) : bool :=
  match e_needs_ai e with Some true => true | _ => false end.

(** [for i, q in enumerate(evaluation_data): if q['question_id'] == q_id and
    q.get('needs_ai_evaluation'): evaluation_data[i].update(...); break] *)
Fixpoint update_first (q_id : json) (f : entry -> entry) (es : list entry) : list entry :=
  match es with
  | [] => []
  | e :: rest =>
      if py_eq (e_question_id e) q_id && deferred e then f e :: rest
      else e :: update_first q_id f rest
  end.

(** [q_type == "mcq"] *)
Definition is_mcq (q_type : json) : bool :=
  match q_type with JStr t => String.eqb t "mcq" | _ => false end.

(** The body of [for question in questions_data['questions']]: the entry
    appended to [evaluation_data], the marks of [question], and what is added
    to [obtained_marks].  [None]: an exception, caught by the outer handler. *)
Definition question_entry (rt : Runtime) (user_answers : list (string * string))
    (question : json) : option (entry * Q * Q) :=
  match question with
  | JObj qd =>
      match dict_lookup "id" qd, dict_lookup "type" qd, dict_lookup "marks" qd,
            dict_lookup "question" qd with
      | Some q_id, Some q_type, Some q_marks_v, Some q_text =>
          match py_num q_marks_v with
          | None => None
          | Some q_marks =>
              let user_answer :=
                strip (dict_get user_answers (rt_str rt q_id) "") in
              let subjective :=
                {| e_question_id := q_id; e_question := q_text; e_type := q_type;
                   e_user_answer := user_answer; e_correct_answer := None;
                   e_is_correct := None;
                   e_sample_answer := Some (dict_get qd "sample_answer" (JStr ""));
                   e_marks_obtained := None; e_total_marks := q_marks;
                   e_needs_ai := Some true; e_feedback := None;
                   e_suggestions := None |} in
              if is_mcq q_type then
                  match dict_get qd "correct_answer" (JStr "") with
                  | JStr ca =>
                      let correct_answer := strip ca in
                      if str_truthy correct_answer then
                        let is_correct :=
                          String.eqb (upper user_answer) (upper correct_answer) in
                        let marks_obtained := if is_correct then q_marks else 0%Q in
                        Some ({| e_question_id := q_id; e_question := q_text;
                                 e_type := q_type; e_user_answer := user_answer;
                                 e_correct_answer := Some correct_answer;
                                 e_is_correct := Some is_correct;
                                 e_sample_answer := None;
                                 e_marks_obtained := Some marks_obtained;
                                 e_total_marks := q_marks; e_needs_ai := None;
                                 e_feedback := None; e_suggestions := None |},
                              q_marks, marks_obtained)
                      else Some (subjective, q_marks, 0%Q)
                  | _ => None  (* [.strip()] of a non-string: AttributeError *)
                  end
              else Some (subjective, q_marks, 0%Q)
          end
      | _, _, _, _ => None
      end
  | _ => None
  end.

(** The per-question pass, threading [total_marks], [obtained_marks] and
    [evaluation_data]. *)
Fixpoint first_pass (rt : Runtime) (user_answers : list (string * string))
    (questions : list json) (total obtained : Q) (data : list entry)
  : option (Q * Q * list entry) :=
  match questions with
  | [] => Some (total, obtained, data)
  | question :: rest =>
      match question_entry rt user_answers question with
      | Some (e, q_marks, m) =>
          first_pass rt user_answers rest (total + q_marks) (obtained + m) (data ++ [e])
      | None => None
      end
  end.

(** [float(x)] of a decoded JSON value; [OtherError] is the [OverflowError]
    of an [int] too large for a float. *)
Definition py_float (rt : Runtime) (v : json) : Q + exn :=
  match v with
  | JInt z => match to_float (inject_Z z) with Some u => inl u | None => inr OtherError end
  | JFloat q => inl (round_binary64 q)
  | JBool b => inl (if b then 1 else 0)%Q
  | JStr s => match rt_float_str rt s with Some q => inl q | None => inr ValueError end
  | _ => inr TypeError
  end.

(** The reconciliation loop over [eval_result.get('evaluations', [])].  It
    returns the running [obtained_marks] and [evaluation_data] together with
    the exception that stopped it, if any: the assignments made before an
    exception persist. *)
Fixpoint reconcile (rt : Runtime) (items : list json) (obtained : Q) (data : list entry)
  : Q * list entry * option exn :=
  match items with
  | [] => (obtained, data, None)
  | eval_item :: rest =>
      match eval_item with
      | JObj it =>
          match dict_lookup "question_id" it with
          | None => (obtained, data, Some KeyError)
          | Some q_id =>
              match py_float rt (dict_get it "marks_obtained" (JInt 0)) with
              | inr e => (obtained, data, Some e)
              | inl marks =>
                  let data' :=
                    update_first q_id
                      (fun e => graded e marks
                                  (dict_get it "feedback" (JStr "Good attempt"))
                                  (dict_get it "suggestions" (JStr "")))
                      data in
                  reconcile rt rest (obtained + marks) data'
              end
          end
      | _ => (obtained, data, Some TypeError)  (* indexing a non-dict *)
      end
  end.

Definition fallback_feedback : json := JStr "Answer provided - partial credit given".

(** [fallback_marks = q['total_marks'] * 0.6 if q['user_answer'] else 0];
    [None]: the [OverflowError] of [float()] on a huge [int]. *)
Definition fallback_marks (q : entry) : option Q :=
  if str_truthy (e_user_answer q) then py_float_mul (e_total_marks q) py_0_6 else Some 0%Q.

(** The fallback loop [for q in subjective_questions: ...].  The list
    [subjective_questions] holds the same dict objects as [evaluation_data];
    the loop reads only [total_marks], [user_answer] and [question_id] of [q],
    which no update changes, so the snapshot taken before the model call is
    read here.  [None]: an exception, which no handler of the inner [try]
    catches. *)
Fixpoint fallback (suggestions : json) (subjective : list entry) (obtained : Q)
    (data : list entry) : option (Q * list entry) :=
  match subjective with
  | [] => Some (obtained, data)
  | q :: rest =>
      match fallback_marks q with
      | None => None
      | Some fm =>
          fallback suggestions rest (obtained + fm)
            (update_first (e_question_id q)
               (fun e => graded e fm fallback_feedback suggestions) data)
      end
  end.

Definition sugg_no_json : json := JStr "Detailed evaluation was not available".
Definition sugg_error : json := JStr "Please review the sample answer for improvement".

(** The batch grading of [subjective_questions] (non-empty): the inner [try]
    and its [except (json.JSONDecodeError, KeyError, ValueError)].  [None]: an
    exception that reaches the outer handler. *)
Definition ai_step (rt : Runtime) (reply : model_reply) (subjective : list entry)
    (obtained : Q) (data : list entry) : option (Q * list entry) :=
  let on_error (e : exn) (obtained : Q) (data : list entry) :=
    match e with
    | KeyError | ValueError => fallback sugg_error subjective obtained data
    | _ => None
    end in
  match reply with
  | CallRaises e | TextRaises e => on_error e obtained data
  | Reply text =>
      let response_text := strip text in
      if has_braces response_text then
        match rt_loads rt (brace_slice response_text) with
        | None => on_error ValueError obtained data   (* JSONDecodeError *)
        | Some eval_result =>
            match eval_result with
            | JObj er =>
                match py_iter (dict_get er "evaluations" (JArr [])) with
                | None => None   (* TypeError: not iterable *)
                | Some items =>
                    match reconcile rt items obtained data with
                    | (obtained', data', None) => Some (obtained', data')
                    | (obtained', data', Some e) => on_error e obtained' data'
                    end
                end
            | _ => None  (* AttributeError: [.get] of a non-dict *)
            end
        end
      else fallback sugg_no_json subjective obtained data
  end.

(** [for question in questions_data['questions']]: the items iterated. *)
Definition questions_of (questions_data : json) : option (list json) :=
  match py_index questions_data "questions" with
  | Some qs => py_iter qs
  | None => None
  end.

Definition percentage_of (obtained total : Q) : Q :=
  if Qle_bool total 0 then 0%Q else (obtained / total * 100)%Q.

(** [evaluate_exam_answers(questions_data, user_answers)]; [reply] is what the
    grading call returns (consulted only when some question is deferred). *)
Definition evaluate_exam_answers (rt : Runtime) (questions_data : json)
    (user_answers : list (string * string)) (reply : model_reply)
  : option eval_result :=
  match questions_of questions_data with
  | None => None
  | Some questions =>
          match first_pass rt user_answers questions 0%Q 0%Q [] with
          | None => None
          | Some (total_marks, obtained_marks, evaluation_data) =>
              let subjective := filter deferred evaluation_data in
              let step :=
                match subjective with
                | [] => Some (obtained_marks, evaluation_data)
                | _ => ai_step rt reply subjective obtained_marks evaluation_data
                end in
              match step with
              | None => None
              | Some (obtained, data) =>
                  Some {| r_total_marks := total_marks;
                          r_obtained_marks := obtained;
                          r_percentage := percentage_of obtained total_marks;
                          r_evaluations := data |}
              end
          end
  end.

(* ================================================================== *)
(** ** [generate_questions]: the two model calls and the structured branch

    The prompt construction and the pattern handling are not modelled (the
    pattern fields of the session are written independently of
    [questions_data]).  The result is the return value, the new
    [st.session_state.questions_data], and the messages shown. *)

Inductive message : Type :=
| MSuccess     (* st.success *)
| MWarning     (* st.warning *)
| MInfo        (* st.info *)
| MError       (* st.error *)
| MDebug.      (* the raw-response expander *)

Definition generate_questions (rt : Runtime) (display_reply exam_reply : model_reply)
    (questions_data : option json) : option string * option json * list message :=
  match display_reply with
  | CallRaises _ => (None, questions_data, [MError])
  | _ =>
      let after_exam : option (option json * list message) :=
        match exam_reply with
        | CallRaises _ | TextRaises _ => None
        | Reply t =>
            match extract_json rt (strip t) with
            | Some exam_data => Some (Some exam_data, [MSuccess])
            | None => Some (None, [MWarning; MInfo; MDebug])
            end
        end in
      match after_exam with
      | None =>
          match exam_reply with
          | TextRaises ValueError =>
              (* caught: warning and [questions_data = None]; the debug
                 expander opens, reads [exam_response.text] again and raises *)
              (None, None, [MWarning; MInfo; MDebug; MError])
          | _ => (None, questions_data, [MError])
          end
      | Some (qd, msgs) =>
          match display_reply with
          | Reply d => (Some d, qd, msgs)
          | _ => (None, qd, (msgs ++ [MError])%list)  (* [display_response.text] raises *)
          end
      end
  end.

(* ================================================================== *)
(** ** Session state and the Take Exam submit handler *)

Record session : Type := {
  s_questions_data : option json;
  s_exam_answers : list (string * string);
  s_exam_submitted : bool;
  s_evaluation_result : option eval_result
}.

Inductive event : Type :=
| EvError       (* st.error *)
| EvInfo        (* st.info *)
| EvSuccess     (* st.success *)
| EvEvaluate    (* evaluate_exam_answers(...) is called *)
| EvCrash.      (* an exception aborts the script run *)

(** Python truthiness of a decoded JSON value. *)
Definition json_truthy (v : json) : bool :=
  match v with
  | JNull => false
  | JBool b => b
  | JInt z => negb (Z.eqb z 0)
  | JFloat q => negb (Qeq_bool (round_binary64 q) 0)
  | JStr s => str_truthy s
  | JArr l => negb (Nat.eqb (length l) 0)
  | JObj kvs => negb (Nat.eqb (length kvs) 0)
  end.

(** [question.get('options', [])]; [question] is a dict. *)
Definition question_options (question : json) : json :=
  match question with
  | JObj qd => dict_get qd "options" (JArr [])
  | _ => JArr []
  end.

(** The form shows a widget for the question: [st.radio] for an MCQ with
    options, [st.text_area] for any other type. *)
Definition widget_shown (question q_type : json) : bool :=
  if is_mcq q_type then json_truthy (question_options question) else true.

(** The loop of [st.form("exam_form")] building [form_answers]; [widget] is
    the value of the question's widget: [st.radio(..., index=None)] gives
    [None] or the selected option, [st.text_area] gives the typed text.
    [widget_keys] are the keys [f"q_{q_id}"] of the widgets created so far:
    Streamlit raises on a second widget with a key already used in the run
    ([None] here). *)
Fixpoint collect_form_answers (rt : Runtime) (qws : list (json * option string))
    (widget_keys : list string) (form_answers : list (string * string))
    : option (list (string * string)) :=
  match qws with
  | [] => Some form_answers
  | (question, widget) :: rest =>
      match py_index question "id", py_index question "type",
            py_index question "question", py_index question "marks" with
      | Some q_id, Some q_type, Some _, Some _ =>
          let key := rt_str rt q_id in
          let wkey := ("q_" ++ key)%string in
          if widget_shown question q_type && existsb (String.eqb wkey) widget_keys
          then None   (* DuplicateWidgetID *)
          else
          let widget_keys' :=
            if widget_shown question q_type then wkey :: widget_keys else widget_keys in
          let form_answers' :=
            if is_mcq q_type then
              let options := question_options question in
              if json_truthy options then
                match widget with
                | Some user_answer =>
                    if str_truthy user_answer then
                      dict_set key (strip (split_head ")"%char user_answer)) form_answers
                    else form_answers
                | None => form_answers
                end
              else form_answers   (* st.error: no options *)
            else
              match widget with
              | Some answer =>
                  if str_truthy answer && str_truthy (strip answer) then
                    dict_set key (strip answer) form_answers
                  else form_answers
              | None => form_answers
              end in
          collect_form_answers rt rest widget_keys' form_answers'
      | _, _, _, _ => None
      end
  end.

Definition set_answers (s : session) (a : list (string * string)) : session :=
  {| s_questions_data := s_questions_data s; s_exam_answers := a;
     s_exam_submitted := s_exam_submitted s;
     s_evaluation_result := s_evaluation_result s |}.

Definition set_evaluated (s : session) (r : eval_result) : session :=
  {| s_questions_data := s_questions_data s; s_exam_answers := s_exam_answers s;
     s_exam_submitted := true; s_evaluation_result := Some r |}.

(** One run of the Take Exam page in which the form's submit button was
    pressed; [widgets] are the widget values, one per question, and [reply]
    is what the grading model call returns. *)
Definition submit_exam (rt : Runtime) (s : session) (widgets : list (option string))
    (reply : model_reply) : session * list event :=
  match s_questions_data s with
  | None => (s, [])                    (* the page shows a warning, no form *)
  | Some questions_data =>
      if negb (json_truthy questions_data) then (s, []) else
          match questions_of questions_data with
          | None => (s, [EvCrash])
          | Some questions =>
              (* sidebar: [sum(q['marks'] for q in questions)] *)
              if negb (forallb (fun q => match py_index q "marks" with
                                         | Some m => match py_num m with Some _ => true | None => false end
                                         | None => false end) questions)
              then (s, [EvCrash])
              else if s_exam_submitted s then (s, [])   (* no form shown *)
              else
                match collect_form_answers rt (combine questions widgets) [] [] with
                | None => (s, [EvCrash])
                | Some form_answers =>
                    if Nat.eqb (length form_answers) 0 then (s, [EvError])
                    else
                      let s1 := set_answers s form_answers in
                      match evaluate_exam_answers rt questions_data form_answers reply with
                      | Some r => (set_evaluated s1 r, [EvInfo; EvEvaluate; EvSuccess])
                      | None => (s1, [EvInfo; EvEvaluate; EvError])
                      end
                end
          end
  end.

(* ================================================================== *)
(** ** Vocabulary of the statements *)

(** Some ['{'] occurs before some ['}'] in [t]. *)
Definition has_brace_pair (t : string) : Prop :=
  exists i j, (i < j)%nat /\ String.get i t = Some "{"%char /\
              String.get j t = Some "}"%char.

(** [i] is the index of the first [c] in [t]; [j] the index of the last. *)
Definition is_first (c : ascii) (t : string) (i : nat) : Prop :=
  String.get i t = Some c /\ forall k, (k < i)%nat -> String.get k t <> Some c.

Definition is_last (c : ascii) (t : string) (j : nat) : Prop :=
  String.get j t = Some c /\ forall k, (j < k)%nat -> String.get k t <> Some c.

(** [sum(e.get('marks_obtained', 0) for e in evaluations)] *)
Definition entries_obtained (es : list entry) : Q :=
  fold_right (fun e acc => (match e_marks_obtained e with Some m => m | None => 0 end + acc)%Q)
    0%Q es.

(** [sum(e['total_marks'] for e in evaluations)] *)
Definition entries_total (es : list entry) : Q :=
  fold_right (fun e acc => (e_total_marks e + acc)%Q) 0%Q es.

(** The values [float(item.get('marks_obtained', 0))] of the items of a
    decoded grading reply that carry a [question_id]. *)
Definition item_marks (rt : Runtime) (it : json) : list Q :=
  match it with
  | JObj kv =>
      match dict_lookup "question_id" kv with
      | Some _ =>
          match py_float rt (dict_get kv "marks_obtained" (JInt 0)) with
          | inl m => [m]
          | inr _ => []
          end
      | None => []
      end
  | _ => []
  end.

Definition model_marks (rt : Runtime) (reply : model_reply) : list Q :=
  match reply with
  | Reply text =>
      let t := strip text in
      if has_braces t then
        match rt_loads rt (brace_slice t) with
        | Some (JObj er) =>
            match py_iter (dict_get er "evaluations" (JArr [])) with
            | Some items => flat_map (item_marks rt) items
            | None => []
            end
        | _ => []
        end
      else []
  | _ => []
  end.

(** The [id] values of a question list. *)
Definition question_ids (questions : list json) : list json :=
  flat_map (fun q => match py_index q "id" with Some i => [i] | None => [] end) questions.

(** Every id equals itself under Python [==]. *)
Definition ids_self_equal (questions : list json) : bool :=
  forallb (fun i => py_eq i i) (question_ids questions).

(** Ids are pairwise different under Python [==] (and each equals itself). *)
Fixpoint distinct_ids (ids : list json) : bool :=
  match ids with
  | [] => true
  | i :: rest =>
      py_eq i i && forallb (fun k => negb (py_eq i k) && negb (py_eq k i)) rest &&
      distinct_ids rest
  end.

(** The question is left unanswered in the form: no radio selection or an
    empty one, an MCQ without options (no radio is shown), or text that is
    empty or only whitespace. *)
Definition unanswered (question : json) (widget : option string) : Prop :=
  match widget with
  | None => True
  | Some a =>
      a = EmptyString \/
      match py_index question "type" with
      | Some q_type =>
          if is_mcq q_type then json_truthy (question_options question) = false
          else strip a = EmptyString
      | None => True
      end
  end.

(** The key [f"q_{q_id}"] of the widget the form shows for [question], if
    it shows one. *)
Definition widget_key (rt : Runtime) (question : json) : option string :=
  match py_index question "id", py_index question "type",
        py_index question "question", py_index question "marks" with
  | Some q_id, Some q_type, Some _, Some _ =>
      if widget_shown question q_type then Some ("q_" ++ rt_str rt q_id)%string else None
  | _, _, _, _ => None
  end.

(** An entry that is not deferred is never changed again. *)
Definition keep (e e' : entry) : Prop := deferred e = false -> e' = e.

Definition demo_session : session :=
  {| s_questions_data := Some demo_qd; s_exam_answers := [];
     s_exam_submitted := false; s_evaluation_result := None |}.

(** An exam whose short question has the id ["1"] (a string), where the MCQ
    has the id [1]. *)
Definition demo_dup_qd : json :=
  JObj [("questions", JArr [JObj demo_mcq;
    JObj [("id", JStr "1"); ("type", JStr "short"); ("question", JStr "Why do things fall?");
          ("marks", JInt 3)]])].

Definition demo_dup_session : session :=
  {| s_questions_data := Some demo_dup_qd; s_exam_answers := [];
     s_exam_submitted := false; s_evaluation_result := None |}.

(** Every entry without [marks_obtained] is still deferred. *)
Definition marked_or_deferred (e : entry) : Prop :=
  e_marks_obtained e = None -> e_needs_ai e = Some true.

(** How the fallback loop changes an entry of the per-question pass. *)
Definition fallback_rel (sugg : json) (e e' : entry) : Prop :=
  if deferred e then exists m, fallback_marks e = Some m /\ e' = graded e m fallback_feedback sugg
  else e' = e.

(** [l] is [l'] with some elements left out (a subsequence). *)
Inductive subseq {A : Type} : list A -> list A -> Prop :=
| subseq_nil : subseq [] []
| subseq_skip : forall x l l', subseq l l' -> subseq l (x :: l')
| subseq_take : forall x l l', subseq l l' -> subseq (x :: l) (x :: l').

(** The fallback ran without exception: an entry still deferred after it
    gets [float(total_marks) * 0.6] (rounded) or 0. *)
Definition fallback_value (e : entry) : Q :=
  if str_truthy (e_user_answer e)
  then round_binary64 (round_binary64 (e_total_marks e) * py_0_6) else 0%Q.

(** [y] is a finite non-negative binary64 value: [k * 2^f] with a 53-bit
    significand [k] and an exponent no smaller than the subnormal one. *)
Definition is_binary64 (y : Q) : Prop :=
  exists k f : Z, (0 <= k < 2 ^ 53)%Z /\ (-1074 <= f)%Z /\ y == inject_Z k * 2 ^ f.

(** The numbers Python holds: an [int], or a [float] (the rounding of the
    literal to binary64). *)
Definition py_number (t : Q) : Prop :=
  (exists z, t == inject_Z z) \/ (exists q, t == round_binary64 q).

(** An entry's marks lie in [0, total_marks] (when [total_marks] is not
    negative), or are one of the values [ms] returned by the model. *)
Definition marks_within (ms : list Q) (e : entry) : Prop :=
  forall m, e_marks_obtained e = Some m ->
    ((0 <= e_total_marks e)%Q -> (0 <= m)%Q /\ (m <= e_total_marks e)%Q) \/ In m ms.

(* ================================================================== *)
(** ** Image regions: [calculate_overlap], [remove_overlapping_regions]

    A region is the dict built by [detect_image_regions] and
    [detect_concentrated_regions]: [bbox] is the tuple [(x, y, w, h)] of
    numbers; [confidence] is read with [.get('confidence', 0)].  Numbers are
    exact rationals. *)

Record region : Type := {
  rg_bbox : Q * Q * Q * Q;
  rg_type : string;
  rg_confidence : option Q;
  rg_method : string
}.

(** [a > b] *)
Definition py_gt (a b : Q) : bool := negb (Qle_bool a b).

(** [max(a, b)]: [a] unless [b > a]. *)
Definition py_max (a b : Q) : Q := if py_gt b a then b else a.

(** [min(a, b)]: [a] unless [b < a]. *)
Definition py_min (a b : Q) : Q := if py_gt a b then b else a.

Definition calculate_overlap (bbox1 bbox2 : Q * Q * Q * Q) : Q :=
  let '(x1, y1, w1, h1) := bbox1 in
  let '(x2, y2, w2, h2) := bbox2 in
  let xi1 := py_max x1 x2 in
  let yi1 := py_max y1 y2 in
  let xi2 := py_min (x1 + w1) (x2 + w2) in
  let yi2 := py_min (y1 + h1) (y2 + h2) in
  if Qle_bool xi2 xi1 || Qle_bool yi2 yi1 then 0
  else
    let intersection := (xi2 - xi1) * (yi2 - yi1) in
    let union := w1 * h1 + w2 * h2 - intersection in
    if py_gt union 0 then intersection / union else 0.

(** [region.get('confidence', 0)] *)
Definition confidence (r : region) : Q :=
  match rg_confidence r with Some c => c | None => 0 end.

(** One iteration of the outer loop: the first kept region overlapping
    [region1] by more than 0.5 is replaced by [region1] when [region1] has the
    higher confidence ([break] either way); with no such region [region1] is
    appended. *)
Fixpoint overlap_step (region1 : region) (filtered : list region) : list region :=
  match filtered with
  | [] => [region1]
  | region2 :: rest =>
      if py_gt (calculate_overlap (rg_bbox region1) (rg_bbox region2)) (1 # 2) then
        if py_gt (confidence region1) (confidence region2) then region1 :: rest
        else region2 :: rest
      else region2 :: overlap_step region1 rest
  end.

(** The [try] body raises nothing on regions of this shape. *)
Definition remove_overlapping_regions (regions : list region) : list region :=
  fold_left (fun filtered region1 => overlap_step region1 filtered) regions [].

(** A region as the detectors build it, for concrete runs. *)
Definition demo_region (x y w h c : Q) : region :=
  {| rg_bbox := (x, y, w, h); rg_type := "image"; rg_confidence := Some c;
     rg_method := "contour" |}.

(* ================================================================== *)
(** ** [classify_image_type]

    [pil_image.size] is [(width, height)], integers; [width / height] is true
    division and raises [ZeroDivisionError] when [height] is 0, which the bare
    [except] turns into ['unknown']. *)

Definition classify_image_type (width height : Z) : string :=
  if Z.eqb height 0 then "unknown"
  else
    let area := (width * height)%Z in
    let aspect_ratio := (inject_Z width / inject_Z height)%Q in
    if Z.ltb area 10000 && py_gt aspect_ratio (1 # 2) && py_gt 3 aspect_ratio then "logo"
    else if Z.ltb area 5000 then "small_logo"
    else if py_gt aspect_ratio 3 then "banner"
    else "image".

(* ================================================================== *)
(** ** The View Results page: the grade *)

(** The [if result['percentage'] >= 80: ... else: grade = "F"] chain. *)
Definition grade_of (percentage : Q) : string :=
  if Qle_bool 80 percentage then "A+"
  else if Qle_bool 70 percentage then "A"
  else if Qle_bool 60 percentage then "B"
  else if Qle_bool 50 percentage then "C"
  else "F".

(** The order of the grades, worst first. *)
Definition grade_rank (g : string) : nat :=
  if String.eqb g "A+" then 4
  else if String.eqb g "A" then 3
  else if String.eqb g "B" then 2
  else if String.eqb g "C" then 1
  else 0.

(* ================================================================== *)
(** ** [parse_generated_questions] and the template of
    [generate_template_based_pdf] *)

(** [s.split(c)] for a one-character separator. *)
Fixpoint split_on (c : ascii) (s : string) : list string :=
  match s with
  | EmptyString => [EmptyString]
  | String d r =>
      if Ascii.eqb d c then EmptyString :: split_on c r
      else match split_on c r with
           | h :: t => String d h :: t
           | [] => [String d EmptyString]
           end
  end.

Definition newline : ascii := ascii_of_nat 10.

(** [c.isdigit()] on the ASCII range *)
Definition is_ascii_digit (c : ascii) : bool :=
  let n := nat_of_ascii c in Nat.leb 48 n && Nat.leb n 57.

(** [line and (line[0].isdigit() or line.startswith('Q'))] *)
Definition starts_question (line : string) : bool :=
  match line with
  | String c _ => is_ascii_digit c || Ascii.eqb c "Q"%char
  | EmptyString => false
  end.

(** The loop over the stripped lines, threading [current_question] and
    [questions]; the final [if current_question] is the [[]] case. *)
Fixpoint parse_loop (lines : list string) (current_question : string)
    (questions : list string) : list string :=
  match lines with
  | [] => if str_truthy current_question then questions ++ [strip current_question]
          else questions
  | line0 :: rest =>
      let line := strip line0 in
      if starts_question line then
        parse_loop rest line
          (if str_truthy current_question then questions ++ [strip current_question]
           else questions)
      else parse_loop rest (current_question ++ String newline line) questions
  end.

Definition parse_generated_questions (questions_text : string) : list string :=
  parse_loop (split_on newline questions_text) "" [].

(** [s.startswith(p)] *)
Fixpoint py_startswith (p s : string) : bool :=
  match p, s with
  | EmptyString, _ => true
  | String a p', String b s' => Ascii.eqb a b && py_startswith p' s'
  | String _ _, EmptyString => false
  end.

(** [p in s] *)
Fixpoint py_contains (p s : string) : bool :=
  py_startswith p s ||
  match s with
  | EmptyString => false
  | String _ s' => py_contains p s'
  end.

(** [s.replace(old, new, 1)] *)
Fixpoint replace_first (old new s : string) : string :=
  if py_startswith old s then
    new ++ substring (String.length old) (String.length s - String.length old) s
  else match s with
       | EmptyString => EmptyString
       | String c s' => String c (replace_first old new s')
       end.

Definition placeholder_prefix : string := "[QUESTION_PLACEHOLDER".

(** [f"[QUESTION_PLACEHOLDER_{i}]"] *)
Definition numbered_placeholder (i : nat) : string :=
  placeholder_prefix ++ "_" ++ z_to_decimal (Z.of_nat i) ++ "]".

Definition generic_placeholder : string := placeholder_prefix ++ "]".

(** [for i, question in enumerate(questions_list, 1): ...] *)
Fixpoint fill_placeholders (questions : list string) (i : nat) (final_content : string)
  : string :=
  match questions with
  | [] => final_content
  | question :: rest =>
      let placeholder :=
        if py_contains (numbered_placeholder i) final_content then numbered_placeholder i
        else generic_placeholder in
      fill_placeholders rest (S i) (replace_first placeholder question final_content)
  end.

(** The text [final_content] that [generate_template_based_pdf] lays out,
    from [template = pattern_format.get('complete_template', '')]. *)
Definition template_content (template questions_text : string) : string :=
  fill_placeholders (parse_generated_questions questions_text) 1 template.

(* ================================================================== *)
(** ** Response parser lemmas *)

Open Scope list_scope.

Lemma find_char_some : forall c s i, find_char c s = Some i -> is_first c s i.
Proof.
  intros c s; induction s as [|d r IH]; intros i H; simpl in H; [discriminate|].
  destruct (Ascii.eqb d c) eqn:E.
  - inversion H; subst. apply Ascii.eqb_eq in E; subst.
    split; [reflexivity| intros k Hk; lia].
  - destruct (find_char c r) as [i'|] eqn:F; simpl in H; [|discriminate].
    inversion H; subst. destruct (IH i' eq_refl) as [G1 G2].
    split; [exact G1|].
    intros [|k] Hk; simpl.
    + intro Hd; inversion Hd; subst. rewrite Ascii.eqb_refl in E; discriminate.
    + apply G2; lia.
Qed.

Lemma find_char_none : forall c s, find_char c s = None -> forall k, String.get k s <> Some c.
Proof.
  intros c s; induction s as [|d r IH]; intros H k; simpl in H; [destruct k; discriminate|].
  destruct (Ascii.eqb d c) eqn:E; [discriminate|].
  destruct (find_char c r) eqn:F; simpl in H; [discriminate|].
  destruct k as [|k]; simpl.
  - intro Hd; inversion Hd; subst. rewrite Ascii.eqb_refl in E; discriminate.
  - apply IH; reflexivity.
Qed.

Lemma rfind_char_none : forall c s, rfind_char c s = None -> forall k, String.get k s <> Some c.
Proof.
  intros c s; induction s as [|d r IH]; intros H k; simpl in H; [destruct k; discriminate|].
  destruct (rfind_char c r) eqn:F; [discriminate|].
  destruct (Ascii.eqb d c) eqn:E; [discriminate|].
  destruct k as [|k]; simpl.
  - intro Hd; inversion Hd; subst. rewrite Ascii.eqb_refl in E; discriminate.
  - apply IH; reflexivity.
Qed.

Lemma rfind_char_some : forall c s j, rfind_char c s = Some j -> is_last c s j.
Proof.
  intros c s; induction s as [|d r IH]; intros j H; simpl in H; [discriminate|].
  destruct (rfind_char c r) as [i|] eqn:F.
  - inversion H; subst. destruct (IH i eq_refl) as [G1 G2].
    split; [exact G1|]. intros [|k] Hk; [lia|]. simpl. apply G2; lia.
  - destruct (Ascii.eqb d c) eqn:E; [|discriminate].
    inversion H; subst. apply Ascii.eqb_eq in E; subst.
    split; [reflexivity|]. intros [|k] Hk; [lia|]. simpl.
    apply rfind_char_none; assumption.
Qed.

Lemma has_char_spec : forall c s,
  has_char c s = true <-> exists k, String.get k s = Some c.
Proof.
  intros c s; unfold has_char; induction s as [|d r IH]; simpl.
  - split; [discriminate| intros [[|k] H]; discriminate].
  - rewrite Bool.orb_true_iff, IH. split.
    + intros [E|[k Hk]].
      * apply Ascii.eqb_eq in E; subst. exists 0%nat; reflexivity.
      * exists (S k); exact Hk.
    + intros [[|k] Hk].
      * simpl in Hk; inversion Hk; subst. left; apply Ascii.eqb_refl.
      * right; exists k; exact Hk.
Qed.

Lemma is_first_unique : forall c t i i', is_first c t i -> is_first c t i' -> i = i'.
Proof.
  intros c t i i' [H1 H2] [H1' H2'].
  destruct (Nat.lt_trichotomy i i') as [L|[L|L]]; auto.
  - exfalso; exact (H2' i L H1).
  - exfalso; exact (H2 i' L H1').
Qed.

Lemma is_last_unique : forall c t j j', is_last c t j -> is_last c t j' -> j = j'.
Proof.
  intros c t j j' [H1 H2] [H1' H2'].
  destruct (Nat.lt_trichotomy j j') as [L|[L|L]]; auto.
  - exfalso; exact (H2 j' L H1').
  - exfalso; exact (H2' j L H1).
Qed.

Lemma substring_zero : forall n s, substring n 0 s = "".
Proof.
  induction n as [|n IH]; intros [|c s]; simpl; auto.
Qed.

Lemma find_some_of_get : forall c t k, String.get k t = Some c ->
  exists i, find_char c t = Some i /\ is_first c t i.
Proof.
  intros c t k Hk. destruct (find_char c t) as [i|] eqn:F.
  - exists i; split; [reflexivity| apply find_char_some; exact F].
  - exfalso; exact (find_char_none c t F k Hk).
Qed.

Lemma rfind_some_of_get : forall c t k, String.get k t = Some c ->
  exists j, rfind_char c t = Some j /\ is_last c t j.
Proof.
  intros c t k Hk. destruct (rfind_char c t) as [j|] eqn:F.
  - exists j; split; [reflexivity| apply rfind_char_some; exact F].
  - exfalso; exact (rfind_char_none c t F k Hk).
Qed.

Lemma has_braces_of_pair : forall t, has_brace_pair t -> has_braces t = true.
Proof.
  intros t (i & j & _ & Hi & Hj). unfold has_braces.
  apply andb_true_intro; split; apply has_char_spec; eauto.
Qed.

(** C7. The response parser extracts the slice from the first ['{'] to the
    last ['}'] inclusive and decodes exactly that slice; it fails if and only
    if there is no ['{'] before a ['}'] or the decoding of the slice fails
    (strict JSON decoding rejects the empty document). *)
Theorem extract_json_brace_slice (rt : Runtime) (t : string)
    (Hstrict : rt_loads rt "" = None) :
  (forall i j, is_first "{"%char t i -> is_last "}"%char t j -> (i < j)%nat ->
     brace_slice t = substring i (S j - i) t) /\
  (has_brace_pair t -> extract_json rt t = rt_loads rt (brace_slice t)) /\
  (extract_json rt t = None <->
     ~ has_brace_pair t \/ rt_loads rt (brace_slice t) = None).
Proof.
  split; [|split].
  - intros i j Fi Lj _.
    destruct (find_some_of_get _ _ _ (proj1 Fi)) as (i0 & F & Fi0).
    destruct (rfind_some_of_get _ _ _ (proj1 Lj)) as (j0 & R & Lj0).
    rewrite (is_first_unique _ _ _ _ Fi0 Fi) in F.
    rewrite (is_last_unique _ _ _ _ Lj0 Lj) in R.
    unfold brace_slice, py_slice. rewrite F, R. reflexivity.
  - intros P. unfold extract_json. rewrite (has_braces_of_pair t P). reflexivity.
  - unfold extract_json. split.
    + destruct (has_braces t) eqn:B.
      * intros H; right; exact H.
      * intros _; left; intro P; rewrite (has_braces_of_pair t P) in B; discriminate.
    + intros [NP|D].
      * destruct (has_braces t) eqn:B; [|reflexivity].
        unfold has_braces in B; apply andb_true_iff in B as [B1 B2].
        apply has_char_spec in B1 as [k1 K1]; apply has_char_spec in B2 as [k2 K2].
        destruct (find_some_of_get _ _ _ K1) as (i0 & F & [Gi _]).
        destruct (rfind_some_of_get _ _ _ K2) as (j0 & R & [Gj _]).
        assert (Hle : (S j0 <= i0)%nat).
        { destruct (Nat.lt_trichotomy i0 j0) as [L|[L|L]].
          - exfalso; apply NP; exists i0, j0; auto.
          - subst; rewrite Gi in Gj; discriminate.
          - lia. }
        unfold brace_slice, py_slice. rewrite F, R.
        replace (S j0 - i0)%nat with 0%nat by lia.
        rewrite substring_zero. exact Hstrict.
      * destruct (has_braces t); [exact D|reflexivity].
Qed.

Lemma extract_json_brace_slice_witness :
  rt_loads demo_rt "" = None /\
  extract_json demo_rt demo_brace_text =
    rt_loads demo_rt (brace_slice demo_brace_text).
Proof.
  split; [vm_compute; reflexivity|].
  apply (proj1 (proj2 (extract_json_brace_slice demo_rt _ (eq_refl None)))).
  exists 3%nat, 12%nat. split; [lia| split; reflexivity].
Defined.

(* ================================================================== *)
(** ** Structure of an evaluation run *)

Lemma first_pass_entries : forall rt ua qs t o d t' o' d',
  first_pass rt ua qs t o d = Some (t', o', d') ->
  exists es, d' = d ++ es /\
    Forall2 (fun q e => exists tm m, question_entry rt ua q = Some (e, tm, m)) qs es.
Proof.
  intros rt ua qs; induction qs as [|q qs IH]; intros t o d t' o' d' H; simpl in H.
  - inversion H; subst. exists []; split; [symmetry; apply app_nil_r| constructor].
  - destruct (question_entry rt ua q) as [[[e tm] m]|] eqn:Q; [|discriminate].
    destruct (IH _ _ _ _ _ _ H) as (es & -> & F).
    exists (e :: es); split.
    + rewrite <- app_assoc; reflexivity.
    + constructor; [exists tm, m; exact Q| exact F].
Qed.

Lemma Forall2_nth_error_l : forall {A B} (R : A -> B -> Prop) l1 l2 i a,
  Forall2 R l1 l2 -> nth_error l1 i = Some a -> exists b, nth_error l2 i = Some b /\ R a b.
Proof.
  intros A B R l1 l2 i a F; revert i; induction F as [|x y l1 l2 Hxy F IH]; intros i H.
  - destruct i; discriminate.
  - destruct i as [|i]; simpl in H.
    + inversion H; subst. exists y; split; [reflexivity| exact Hxy].
    + apply IH; exact H.
Qed.

Lemma Forall2_In_r : forall {A B} (R : A -> B -> Prop) l1 l2 b,
  Forall2 R l1 l2 -> In b l2 -> exists a, In a l1 /\ R a b.
Proof.
  intros A B R l1 l2 b F; induction F as [|x y l1 l2 Hxy F IH]; intros H; [destruct H|].
  destruct H as [<-|H].
  - exists x; split; [left; reflexivity| exact Hxy].
  - destruct (IH H) as (a & Ha & Ra). exists a; split; [right; exact Ha| exact Ra].
Qed.

Lemma Forall2_trans_rel : forall {A} (R : A -> A -> Prop) l1 l2 l3,
  (forall a b c, R a b -> R b c -> R a c) ->
  Forall2 R l1 l2 -> Forall2 R l2 l3 -> Forall2 R l1 l3.
Proof.
  intros A R l1 l2 l3 T F12; revert l3.
  induction F12 as [|x y l1 l2 Hxy F IH]; intros l3 F23; inversion F23; subst; constructor; eauto.
Qed.

Lemma Forall2_refl_rel : forall {A} (R : A -> A -> Prop) l,
  (forall a, R a a) -> Forall2 R l l.
Proof. intros A R l H; induction l; constructor; auto. Qed.

Lemma keep_trans : forall a b c, keep a b -> keep b c -> keep a c.
Proof.
  unfold keep; intros a b c H1 H2 Ha. specialize (H1 Ha); subst b. apply H2, Ha.
Qed.

Lemma keep_refl : forall a, keep a a.
Proof. unfold keep; auto. Qed.

Lemma update_first_keep : forall id f d, Forall2 keep d (update_first id f d).
Proof.
  intros id f d; induction d as [|e d IH]; simpl; [constructor|].
  destruct (py_eq (e_question_id e) id && deferred e) eqn:E.
  - constructor; [|apply Forall2_refl_rel, keep_refl].
    intro D. rewrite D, andb_false_r in E; discriminate.
  - constructor; [apply keep_refl| exact IH].
Qed.

Lemma reconcile_keep : forall rt items o d o' d' x,
  reconcile rt items o d = (o', d', x) -> Forall2 keep d d'.
Proof.
  intros rt items; induction items as [|it items IH]; intros o d o' d' x H; simpl in H.
  - inversion H; subst; apply Forall2_refl_rel, keep_refl.
  - destruct it; try (inversion H; subst; apply Forall2_refl_rel, keep_refl).
    destruct (dict_lookup "question_id" kvs) as [q_id|];
      [|inversion H; subst; apply Forall2_refl_rel, keep_refl].
    destruct (py_float rt _) as [marks|e]; [|inversion H; subst; apply Forall2_refl_rel, keep_refl].
    eapply Forall2_trans_rel; [exact keep_trans| apply update_first_keep| exact (IH _ _ _ _ _ H)].
Qed.

Lemma fallback_keep : forall sugg S o d o' d',
  fallback sugg S o d = Some (o', d') -> Forall2 keep d d'.
Proof.
  intros sugg S; induction S as [|q S IH]; intros o d o' d' H; simpl in H.
  - inversion H; subst; apply Forall2_refl_rel, keep_refl.
  - destruct (fallback_marks q) as [fm|]; [|discriminate].
    eapply Forall2_trans_rel; [exact keep_trans| apply update_first_keep| exact (IH _ _ _ _ H)].
Qed.

Lemma ai_step_keep : forall rt reply S o d o' d',
  ai_step rt reply S o d = Some (o', d') -> Forall2 keep d d'.
Proof.
  intros rt reply S o d o' d' H. unfold ai_step in H.
  destruct reply as [text|e|e].
  - destruct (has_braces (strip text)).
    + destruct (rt_loads rt _) as [v|].
      * destruct v; try discriminate.
        destruct (py_iter _) as [items|]; [|discriminate].
        destruct (reconcile rt items o d) as [[o1 d1] [x|]] eqn:R.
        -- apply reconcile_keep in R.
           destruct x; try discriminate;
             (eapply Forall2_trans_rel; [exact keep_trans| exact R| eapply fallback_keep; exact H]).
        -- inversion H; subst. eapply reconcile_keep; exact R.
      * eapply fallback_keep; exact H.
    + eapply fallback_keep; exact H.
  - destruct e; try discriminate; eapply fallback_keep; exact H.
  - destruct e; try discriminate; eapply fallback_keep; exact H.
Qed.

Lemma evaluate_inv : forall rt qd ua reply r,
  evaluate_exam_answers rt qd ua reply = Some r ->
  exists questions total obtained d0 o' d',
    questions_of qd = Some questions /\
    first_pass rt ua questions 0%Q 0%Q [] = Some (total, obtained, d0) /\
    ((filter deferred d0 = [] /\ o' = obtained /\ d' = d0) \/
     (filter deferred d0 <> [] /\
      ai_step rt reply (filter deferred d0) obtained d0 = Some (o', d'))) /\
    r = {| r_total_marks := total; r_obtained_marks := o';
           r_percentage := percentage_of o' total; r_evaluations := d' |}.
Proof.
  intros rt qd ua reply r H. unfold evaluate_exam_answers in H.
  destruct (questions_of qd) as [questions|] eqn:HQ; [|discriminate].
  destruct (first_pass rt ua questions 0%Q 0%Q []) as [[[total obtained] d0]|] eqn:F;
    [|discriminate].
  destruct (filter deferred d0) as [|s0 S] eqn:Fd.
  - inversion H; subst.
    exists questions, total, obtained, d0, obtained, d0.
    split; [auto| split; [auto| split; [left; auto| reflexivity]]].
  - destruct (ai_step rt reply (s0 :: S) obtained d0) as [[o' d']|] eqn:A; [|discriminate].
    inversion H; subst.
    exists questions, total, obtained, d0, o', d'.
    split; [auto| split; [auto|]].
    rewrite Fd. split; [right; split; [discriminate| exact A]| reflexivity].
Qed.

Lemma evaluate_keep : forall rt qd ua reply r,
  evaluate_exam_answers rt qd ua reply = Some r ->
  exists questions total obtained d0,
    questions_of qd = Some questions /\
    first_pass rt ua questions 0%Q 0%Q [] = Some (total, obtained, d0) /\
    Forall2 keep d0 (r_evaluations r).
Proof.
  intros rt qd ua reply r H.
  destruct (evaluate_inv _ _ _ _ _ H) as (qs & t & o & d0 & o' & d' & Q & F & B & ->).
  exists qs, t, o, d0; split; [exact Q| split; [exact F|]]. simpl.
  destruct B as [(_ & _ & ->)|(_ & A)].
  - apply Forall2_refl_rel, keep_refl.
  - eapply ai_step_keep; exact A.
Qed.

Lemma upper_nonempty : forall s, s <> "" -> upper s <> "".
Proof. intros [|c s] H; [contradiction|]. unfold upper; simpl; discriminate. Qed.

Lemma str_truthy_true : forall s, str_truthy s = true -> s <> "".
Proof.
  intros s H E; subst; discriminate.
Qed.

(** C1. An MCQ whose [correct_answer] is non-empty after stripping is graded
    in the per-question pass, without the model reply: full marks when the
    upper-cased answer equals the upper-cased correct answer, 0 otherwise, and
    0 when the question is unanswered. *)
Theorem mcq_graded_locally (rt : Runtime) (qd : json) (ua : list (string * string))
    (reply : model_reply) (r : eval_result) (questions : list json) (i : nat)
    (kvs : list (string * json)) (q_id mv : json) (q_marks : Q) (ca : string)
    (Hev : evaluate_exam_answers rt qd ua reply = Some r)
    (Hqs : questions_of qd = Some questions)
    (Hq : nth_error questions i = Some (JObj kvs))
    (Hid : dict_lookup "id" kvs = Some q_id)
    (Htype : dict_lookup "type" kvs = Some (JStr "mcq"))
    (Hmarks : dict_lookup "marks" kvs = Some mv)
    (Hnum : py_num mv = Some q_marks)
    (Hca : dict_get kvs "correct_answer" (JStr "") = JStr ca)
    (Hdef : str_truthy (strip ca) = true) :
  exists e, nth_error (r_evaluations r) i = Some e /\
    e_marks_obtained e =
      Some (if String.eqb (upper (strip (dict_get ua (rt_str rt q_id) "")))
                          (upper (strip ca))
            then q_marks else 0%Q) /\
    (dict_lookup (rt_str rt q_id) ua = None -> e_marks_obtained e = Some 0%Q).
Proof.
  destruct (evaluate_keep _ _ _ _ _ Hev) as (qs & t & o & d0 & Q & F & K).
  rewrite Hqs in Q; inversion Q; subst qs.
  destruct (first_pass_entries _ _ _ _ _ _ _ _ _ F) as (es & E & Fes).
  simpl in E; subst es.
  destruct (Forall2_nth_error_l _ _ _ _ _ Fes Hq) as (e0 & N0 & tm & m & HQ).
  unfold question_entry in HQ. rewrite Hid, Htype, Hmarks in HQ.
  destruct (dict_lookup "question" kvs) as [q_text|]; [|discriminate].
  rewrite Hnum in HQ. cbn in HQ. rewrite Hca, Hdef in HQ.
  inversion HQ; subst e0; clear HQ.
  destruct (Forall2_nth_error_l _ _ _ _ _ K N0) as (e & Ne & Ke).
  rewrite Ke in Ne by reflexivity.
  eexists; split; [exact Ne|]. cbn. split; [subst; reflexivity|].
  intros Hnone. unfold dict_get. rewrite Hnone.
  destruct (String.eqb (upper (strip "")) (upper (strip ca))) eqn:Eq; [|reflexivity].
  apply String.eqb_eq in Eq. exfalso.
  apply (upper_nonempty (strip ca) (str_truthy_true _ Hdef)).
  rewrite <- Eq. reflexivity.
Qed.

Lemma mcq_graded_locally_witness :
  exists r, evaluate_exam_answers demo_rt demo_qd demo_answers (Reply "sorry") = Some r /\
    exists e, nth_error (r_evaluations r) 0 = Some e /\ e_marks_obtained e = Some 1%Q.
Proof.
  eexists; split; [vm_compute; reflexivity|].
  destruct (mcq_graded_locally demo_rt demo_qd demo_answers (Reply "sorry") _
              [JObj demo_mcq; JObj demo_short] 0 demo_mcq (JInt 1) (JInt 1) 1%Q "C"
              ltac:(vm_compute; reflexivity) ltac:(vm_compute; reflexivity)
              eq_refl eq_refl eq_refl eq_refl eq_refl eq_refl eq_refl)
    as (e & N & M & _).
  exists e; split; [exact N|]. rewrite M. vm_compute. reflexivity.
Defined.

(* ================================================================== *)
(** ** Percentage *)

(** C6. The percentage is [100 * obtained_marks / total_marks] when
    [total_marks > 0] and 0 when [total_marks = 0]; the division is guarded. *)
Theorem percentage_guarded (rt : Runtime) (qd : json) (ua : list (string * string))
    (reply : model_reply) (r : eval_result)
    (Hev : evaluate_exam_answers rt qd ua reply = Some r) :
  (0 < r_total_marks r -> r_percentage r == 100 * r_obtained_marks r / r_total_marks r)%Q /\
  (r_total_marks r == 0 -> r_percentage r == 0)%Q.
Proof.
  destruct (evaluate_inv _ _ _ _ _ Hev) as (qs & t & o & d0 & o' & d' & _ & _ & _ & ->).
  cbn [r_total_marks r_obtained_marks r_percentage]. unfold percentage_of.
  destruct (Qle_bool t 0) eqn:E.
  - apply Qle_bool_iff in E. split.
    + intros L. exfalso. apply (Qlt_not_le _ _ L E).
    + intros _. reflexivity.
  - split.
    + intros _. unfold Qdiv. ring.
    + intros Z0. exfalso. rewrite Z0 in E. discriminate.
Qed.

Lemma percentage_guarded_witness :
  exists r, evaluate_exam_answers demo_rt (JObj [("questions", JArr [])]) [] (Reply "") = Some r /\
    r_percentage r == 0.
Proof.
  eexists; split; [vm_compute; reflexivity|].
  apply (proj2 (percentage_guarded demo_rt (JObj [("questions", JArr [])]) [] (Reply "") _
                  ltac:(vm_compute; reflexivity))).
  reflexivity.
Defined.

(* ================================================================== *)
(** ** Generation: the structured branch *)

(** C8. When both model calls return text and the structured response does
    not parse, generation still returns the display text, clears
    [questions_data] and shows a warning. *)
Theorem structured_parse_failure_nonfatal (rt : Runtime) (d t : string)
    (questions_data : option json)
    (Hfail : extract_json rt (strip t) = None) :
  generate_questions rt (Reply d) (Reply t) questions_data =
    (Some d, None, [MWarning; MInfo; MDebug]).
Proof.
  unfold generate_questions. rewrite Hfail. reflexivity.
Qed.

Lemma structured_parse_failure_nonfatal_witness :
  extract_json demo_rt (strip "I cannot produce JSON.") = None /\
  generate_questions demo_rt (Reply "Q1. ...") (Reply "I cannot produce JSON.")
    (Some demo_qd) = (Some "Q1. ...", None, [MWarning; MInfo; MDebug]).
Proof.
  split; [vm_compute; reflexivity|].
  apply structured_parse_failure_nonfatal. vm_compute. reflexivity.
Defined.

(** C10. Whatever value the brace slice decodes to is stored as
    [questions_data] and reported as a success, without any check of its
    shape; a payload without a ["questions"] key only fails later, when
    [evaluate_exam_answers] indexes it. *)
Theorem structured_payload_published_unvalidated (rt : Runtime) (d t : string)
    (questions_data : option json) (v : json)
    (Hparse : extract_json rt (strip t) = Some v) :
  generate_questions rt (Reply d) (Reply t) questions_data = (Some d, Some v, [MSuccess]) /\
  (py_index v "questions" = None ->
   forall ua reply, evaluate_exam_answers rt v ua reply = None).
Proof.
  split.
  - unfold generate_questions. rewrite Hparse. reflexivity.
  - intros Hq ua reply. unfold evaluate_exam_answers, questions_of. rewrite Hq. reflexivity.
Qed.

Lemma structured_payload_published_unvalidated_witness :
  extract_json demo_rt (strip demo_title_text) = Some (JObj [("title", JStr "Quiz")]) /\
  generate_questions demo_rt (Reply "Q1. ...") (Reply demo_title_text) None =
    (Some "Q1. ...", Some (JObj [("title", JStr "Quiz")]), [MSuccess]) /\
  evaluate_exam_answers demo_rt (JObj [("title", JStr "Quiz")]) demo_answers (Reply "") = None.
Proof.
  assert (H : extract_json demo_rt (strip demo_title_text) =
              Some (JObj [("title", JStr "Quiz")])) by (vm_compute; reflexivity).
  destruct (structured_payload_published_unvalidated demo_rt "Q1. ..." _ None _ H) as [G E].
  split; [exact H| split; [exact G|]].
  apply E. reflexivity.
Defined.

(* ================================================================== *)
(** ** Submitting the exam *)

Lemma form_step_unanswered : forall key q_type question (w : option string) acc,
  py_index question "type" = Some q_type ->
  unanswered question w ->
  (if is_mcq q_type then
     let options := question_options question in
     if json_truthy options then
       match w with
       | Some user_answer =>
           if str_truthy user_answer then
             dict_set key (strip (split_head ")"%char user_answer)) acc
           else acc
       | None => acc
       end
     else acc
   else
     match w with
     | Some answer =>
         if str_truthy answer && str_truthy (strip answer) then
           dict_set key (strip answer) acc
         else acc
     | None => acc
     end) = acc.
Proof.
  intros key q_type question w acc T U. unfold unanswered in U. rewrite T in U.
  destruct w as [a|];
    [|destruct (is_mcq q_type); cbv zeta; try destruct (json_truthy _); reflexivity].
  destruct (is_mcq q_type); cbv zeta.
  - destruct U as [->|U]; [destruct (json_truthy _); reflexivity|]. rewrite U. reflexivity.
  - destruct U as [->|U]; [reflexivity|]. rewrite U. destruct (str_truthy a); reflexivity.
Qed.

Lemma collect_unanswered : forall rt qws keys acc fa,
  Forall (fun qw => unanswered (fst qw) (snd qw)) qws ->
  collect_form_answers rt qws keys acc = Some fa -> fa = acc.
Proof.
  intros rt qws; induction qws as [|[question w] qws IH]; intros keys acc fa U H; simpl in H.
  - inversion H; reflexivity.
  - inversion U as [|x y Uw Urest]; subst; simpl in Uw.
    destruct (py_index question "id") as [q_id|]; [|discriminate].
    destruct (py_index question "type") as [q_type|] eqn:T; [|discriminate].
    destruct (py_index question "question"); [|discriminate].
    destruct (py_index question "marks"); [|discriminate].
    destruct (_ && _); [discriminate|].
    rewrite (form_step_unanswered _ q_type question w acc T Uw) in H.
    exact (IH _ _ _ Urest H).
Qed.

(** C9. Submitting with every question unanswered (no option selected, no
    options to select, or text that is empty or only whitespace) is
    rejected: the session (in particular [exam_submitted] and
    [evaluation_result]) is unchanged and [evaluate_exam_answers] is not
    called. *)
Theorem empty_submission_rejected (rt : Runtime) (s : session)
    (widgets : list (option string)) (reply : model_reply)
    (Hprog : s_exam_submitted s = false)
    (Hnone : forall qd questions, s_questions_data s = Some qd ->
       questions_of qd = Some questions ->
       Forall (fun qw => unanswered (fst qw) (snd qw)) (combine questions widgets)) :
  fst (submit_exam rt s widgets reply) = s /\
  ~ In EvEvaluate (snd (submit_exam rt s widgets reply)).
Proof.
  unfold submit_exam.
  destruct (s_questions_data s) as [questions_data|] eqn:Sq; [|simpl; tauto].
  destruct (negb (json_truthy questions_data)); [simpl; tauto|].
  destruct (questions_of questions_data) as [questions|] eqn:Qs;
    [|simpl; intuition discriminate].
  destruct (negb (forallb _ questions)); [simpl; intuition discriminate|].
  rewrite Hprog.
  destruct (collect_form_answers rt (combine questions widgets) [] []) as [fa|] eqn:C;
    [|simpl; intuition discriminate].
  rewrite (collect_unanswered rt _ [] [] fa (Hnone _ _ eq_refl Qs) C).
  simpl. intuition discriminate.
Qed.

(** The demo exam with no option selected and only spaces typed. *)
Lemma empty_submission_rejected_witness :
  s_exam_submitted demo_session = false /\
  fst (submit_exam demo_rt demo_session [None; Some "   "] (Reply "")) = demo_session.
Proof.
  split; [reflexivity|].
  refine (proj1 (empty_submission_rejected demo_rt demo_session _ (Reply "") eq_refl _)).
  intros qd qs E1 E2. injection E1 as <-. vm_compute in E2. injection E2 as <-.
  cbn [combine]. constructor; [exact I|]. constructor; [|constructor].
  unfold unanswered. right. vm_compute. reflexivity.
Defined.

(* ================================================================== *)
(** ** Reconciliation and fallback invariants *)

Lemma question_entry_shape : forall rt ua q e tm m,
  question_entry rt ua q = Some (e, tm, m) ->
  py_index q "id" = Some (e_question_id e) /\ e_total_marks e = tm /\
  ((e_needs_ai e = Some true /\ e_marks_obtained e = None) \/
   (e_needs_ai e = None /\ (e_marks_obtained e = Some 0%Q \/ e_marks_obtained e = Some tm))).
Proof.
  intros rt ua q e tm m H. unfold question_entry in H.
  destruct q as [| | | | | |kvs]; try discriminate.
  destruct (dict_lookup "id" kvs) as [q_id|] eqn:I; [|discriminate].
  destruct (dict_lookup "type" kvs) as [q_type|]; [|discriminate].
  destruct (dict_lookup "marks" kvs) as [mv|]; [|discriminate].
  destruct (dict_lookup "question" kvs) as [q_text|]; [|discriminate].
  destruct (py_num mv) as [q_marks|]; [|discriminate].
  simpl. rewrite I.
  destruct (is_mcq q_type).
  - destruct (dict_get kvs "correct_answer" (JStr "")) as [| | | |ca| |]; try discriminate.
    destruct (str_truthy (strip ca)).
    + inversion H; subst; clear H. cbn. repeat split.
      right; split; [reflexivity|].
      destruct (String.eqb _ _); [right|left]; reflexivity.
    + inversion H; subst; clear H. cbn. repeat split. left; split; reflexivity.
  - inversion H; subst; clear H. cbn. repeat split. left; split; reflexivity.
Qed.

Lemma py_num_number : forall v t, py_num v = Some t -> py_number t.
Proof.
  intros v t H. destruct v as [|b|z|q| | |]; simpl in H; try discriminate;
    injection H as <-.
  - left. destruct b; [exists 1%Z|exists 0%Z]; reflexivity.
  - left. exists z. reflexivity.
  - right. exists q. reflexivity.
Qed.

Lemma question_entry_number : forall rt ua q e tm m,
  question_entry rt ua q = Some (e, tm, m) -> py_number (e_total_marks e).
Proof.
  intros rt ua q e tm m H.
  destruct (question_entry_shape _ _ _ _ _ _ H) as (_ & -> & _).
  unfold question_entry in H.
  destruct q as [| | | | | |kvs]; try discriminate.
  destruct (dict_lookup "id" kvs) as [q_id|]; [|discriminate].
  destruct (dict_lookup "type" kvs) as [q_type|]; [|discriminate].
  destruct (dict_lookup "marks" kvs) as [mv|]; [|discriminate].
  destruct (dict_lookup "question" kvs) as [q_text|]; [|discriminate].
  destruct (py_num mv) as [q_marks|] eqn:P; [|discriminate].
  apply (py_num_number mv). rewrite P.
  destruct (is_mcq q_type); [|injection H as _ <- _; reflexivity].
  destruct (dict_get kvs "correct_answer" (JStr "")) as [| | | |ca| |]; try discriminate.
  destruct (str_truthy (strip ca)); injection H as _ <- _; reflexivity.
Qed.

Lemma first_pass_ids : forall rt ua qs es,
  Forall2 (fun q e => exists tm m, question_entry rt ua q = Some (e, tm, m)) qs es ->
  question_ids qs = map e_question_id es.
Proof.
  intros rt ua qs es F; induction F as [|q e qs es (tm & m & H) F IH]; [reflexivity|].
  destruct (question_entry_shape _ _ _ _ _ _ H) as [I _].
  unfold question_ids in *. simpl. rewrite I. simpl. f_equal. exact IH.
Qed.

Lemma update_first_spec : forall id f d,
  Forall2 (fun e e' => e' = e \/
             (deferred e = true /\ py_eq (e_question_id e) id = true /\ e' = f e))
    d (update_first id f d).
Proof.
  intros id f d; induction d as [|e d IH]; simpl; [constructor|].
  destruct (py_eq (e_question_id e) id && deferred e) eqn:E.
  - apply andb_true_iff in E as [E1 E2].
    constructor; [right; auto|]. apply Forall2_refl_rel; auto.
  - constructor; [left; reflexivity| exact IH].
Qed.

Lemma Forall2_compose : forall {A B C} (R1 : A -> B -> Prop) (R2 : B -> C -> Prop) a b c,
  Forall2 R1 a b -> Forall2 R2 b c -> Forall2 (fun x z => exists y, R1 x y /\ R2 y z) a c.
Proof.
  intros A B C R1 R2 a b c F1; revert c.
  induction F1 as [|x y a b H F IH]; intros c F2; inversion F2; subst; constructor; eauto.
Qed.

Lemma Forall2_weaken : forall {A B} (R1 R2 : A -> B -> Prop) a b,
  (forall x y, R1 x y -> R2 x y) -> Forall2 R1 a b -> Forall2 R2 a b.
Proof.
  intros A B R1 R2 a b H F; induction F; constructor; auto.
Qed.

Lemma Forall2_diag : forall {A} (R : A -> A -> Prop) l,
  (forall x, In x l -> R x x) -> Forall2 R l l.
Proof.
  intros A R l; induction l as [|x l IH]; intros H; constructor.
  - apply H; left; reflexivity.
  - apply IH; intros y Hy; apply H; right; exact Hy.
Qed.

Lemma Forall_of_Forall2 : forall {A} (S : A -> A -> Prop) (P : A -> Prop) d d',
  Forall2 S d d' -> (forall e e', S e e' -> P e -> P e') -> Forall P d -> Forall P d'.
Proof.
  intros A S P d d' F H FP; induction F; inversion FP; subst; constructor; eauto.
Qed.

Lemma update_first_graded_mod : forall id fb sg (g : entry -> Q) d,
  Forall marked_or_deferred d ->
  Forall marked_or_deferred (update_first id (fun e => graded e (g e) fb sg) d).
Proof.
  intros id fb sg g d F.
  eapply Forall_of_Forall2; [apply update_first_spec| |exact F].
  intros e e' [->|(_ & _ & ->)] H; [exact H|].
  unfold marked_or_deferred; cbn; discriminate.
Qed.

Lemma reconcile_mod : forall rt items o d o' d' x,
  Forall marked_or_deferred d ->
  reconcile rt items o d = (o', d', x) -> Forall marked_or_deferred d'.
Proof.
  intros rt items; induction items as [|it items IH]; intros o d o' d' x F H; simpl in H.
  - inversion H; subst; exact F.
  - destruct it; try (inversion H; subst; exact F).
    destruct (dict_lookup "question_id" kvs) as [q_id|]; [|inversion H; subst; exact F].
    destruct (py_float rt _) as [marks|e]; [|inversion H; subst; exact F].
    eapply IH; [|exact H].
    exact (update_first_graded_mod q_id _ _ (fun _ => marks) d F).
Qed.

Lemma fallback_mod : forall sugg S o d o' d',
  Forall marked_or_deferred d ->
  fallback sugg S o d = Some (o', d') -> Forall marked_or_deferred d'.
Proof.
  intros sugg S; induction S as [|q S IH]; intros o d o' d' F H; simpl in H.
  - inversion H; subst; exact F.
  - destruct (fallback_marks q) as [fm|]; [|discriminate].
    eapply IH; [|exact H].
    exact (update_first_graded_mod _ _ _ (fun _ => fm) d F).
Qed.

Lemma ai_step_mod : forall rt reply S o d o' d',
  Forall marked_or_deferred d ->
  ai_step rt reply S o d = Some (o', d') -> Forall marked_or_deferred d'.
Proof.
  intros rt reply S o d o' d' F H. unfold ai_step in H.
  destruct reply as [text|e|e].
  - destruct (has_braces (strip text)).
    + destruct (rt_loads rt _) as [v|].
      * destruct v; try discriminate.
        destruct (py_iter _) as [items|]; [|discriminate].
        destruct (reconcile rt items o d) as [[o1 d1] [x|]] eqn:R.
        -- apply reconcile_mod in R; [|exact F].
           destruct x; try discriminate; eapply fallback_mod; eassumption.
        -- inversion H; subst. eapply reconcile_mod; eassumption.
      * eapply fallback_mod; eassumption.
    + eapply fallback_mod; eassumption.
  - destruct e; try discriminate; eapply fallback_mod; eassumption.
  - destruct e; try discriminate; eapply fallback_mod; eassumption.
Qed.

Lemma split_filter : forall {A} (p : A -> bool) l x r,
  filter p l = x :: r ->
  exists mid post, l = mid ++ x :: post /\ Forall (fun y => p y = false) mid /\
                   p x = true /\ filter p post = r.
Proof.
  intros A p l; induction l as [|y l IH]; intros x r H; simpl in H; [discriminate|].
  destruct (p y) eqn:P.
  - inversion H; subst. exists [], l. repeat split; auto.
  - destruct (IH x r H) as (mid & post & -> & F & Px & Fr).
    exists (y :: mid), post. repeat split; auto.
Qed.

Lemma filter_nil_Forall : forall {A} (p : A -> bool) l,
  filter p l = [] -> Forall (fun y => p y = false) l.
Proof.
  intros A p l; induction l as [|y l IH]; intros H; simpl in H; constructor.
  - destruct (p y); [discriminate|reflexivity].
  - destruct (p y); [discriminate|]. apply IH, H.
Qed.

Lemma update_first_skip : forall id f pre l,
  Forall (fun e => deferred e = false) pre ->
  update_first id f (pre ++ l) = pre ++ update_first id f l.
Proof.
  intros id f pre l F; induction F as [|e pre De F IH]; [reflexivity|].
  simpl. rewrite De, andb_false_r. f_equal. exact IH.
Qed.

Lemma update_first_here : forall id f q l,
  py_eq (e_question_id q) id = true -> deferred q = true ->
  update_first id f (q :: l) = f q :: l.
Proof.
  intros id f q l E D. simpl. rewrite E, D. reflexivity.
Qed.

Lemma fallback_gen : forall sugg S pre post o o' d',
  Forall (fun e => deferred e = false) pre ->
  filter deferred post = S ->
  Forall (fun e => py_eq (e_question_id e) (e_question_id e) = true) post ->
  fallback sugg S o (pre ++ post) = Some (o', d') ->
  exists post', d' = pre ++ post' /\ Forall2 (fallback_rel sugg) post post'.
Proof.
  intros sugg S; induction S as [|q S IH]; intros pre post o o' d' Fpre Fil Self H.
  - simpl in H. inversion H; subst. exists post; split; [reflexivity|].
    apply Forall2_diag. intros x Hx.
    pose proof (proj1 (Forall_forall _ _) (filter_nil_Forall _ _ Fil) x Hx) as D.
    unfold fallback_rel. rewrite D. reflexivity.
  - destruct (split_filter _ _ _ _ Fil) as (mid & post2 & -> & Fmid & Dq & Fil2).
    simpl in H. destruct (fallback_marks q) as [fm|] eqn:FM; [|discriminate].
    assert (Sq : py_eq (e_question_id q) (e_question_id q) = true).
    { apply Forall_app in Self as [_ Self]. inversion Self; assumption. }
    rewrite app_assoc, update_first_skip in H by (apply Forall_app; split; assumption).
    rewrite update_first_here in H by assumption.
    replace ((pre ++ mid) ++ graded q fm fallback_feedback sugg :: post2)
      with ((pre ++ mid ++ [graded q fm fallback_feedback sugg]) ++ post2)
      in H by (rewrite <- !app_assoc; reflexivity).
    assert (Fpre' : Forall (fun e => deferred e = false)
               (pre ++ mid ++ [graded q fm fallback_feedback sugg])).
    { apply Forall_app; split; [exact Fpre|].
      apply Forall_app; split; [exact Fmid|].
      constructor; [reflexivity|constructor]. }
    assert (Self2 : Forall (fun e => py_eq (e_question_id e) (e_question_id e) = true) post2).
    { apply Forall_app in Self as [_ Self]. inversion Self; assumption. }
    destruct (IH _ post2 _ _ _ Fpre' Fil2 Self2 H) as (post2' & -> & R2).
    exists (mid ++ graded q fm fallback_feedback sugg :: post2').
    split; [rewrite <- !app_assoc; reflexivity|].
    apply Forall2_app.
    + apply Forall2_diag. intros x Hx.
      pose proof (proj1 (Forall_forall _ _) Fmid x Hx) as D.
      unfold fallback_rel. rewrite D. reflexivity.
    + constructor; [|exact R2]. unfold fallback_rel. rewrite Dq. exists fm. split; [exact FM|reflexivity].
Qed.

(** With no usable reply, the batch step is the fallback loop alone. *)
Lemma ai_step_no_reply : forall rt reply S o d o' d',
  (forall t, reply = Reply t -> extract_json rt (strip t) = None) ->
  ai_step rt reply S o d = Some (o', d') ->
  exists sugg, fallback sugg S o d = Some (o', d').
Proof.
  intros rt reply S o d o' d' Hr H. unfold ai_step in H.
  destruct reply as [text|e|e].
  - specialize (Hr text eq_refl). unfold extract_json in Hr.
    destruct (has_braces (strip text)).
    + rewrite Hr in H. exists sugg_error. exact H.
    + exists sugg_no_json. exact H.
  - destruct e; try discriminate; exists sugg_error; exact H.
  - destruct e; try discriminate; exists sugg_error; exact H.
Qed.

Lemma first_pass_facts : forall rt ua questions total obtained d0,
  first_pass rt ua questions 0%Q 0%Q [] = Some (total, obtained, d0) ->
  question_ids questions = map e_question_id d0 /\
  Forall marked_or_deferred d0 /\
  Forall (fun e => e_needs_ai e = Some true \/ e_needs_ai e = None) d0.
Proof.
  intros rt ua questions total obtained d0 F.
  destruct (first_pass_entries _ _ _ _ _ _ _ _ _ F) as (es & E & Fes).
  simpl in E; subst es.
  split; [exact (first_pass_ids _ _ _ _ Fes)|].
  assert (G : forall e, In e d0 -> exists q tm m, question_entry rt ua q = Some (e, tm, m)).
  { intros e He. destruct (Forall2_In_r _ _ _ _ Fes He) as (q & _ & tm & m & H).
    exists q, tm, m; exact H. }
  split; apply Forall_forall; intros e He; destruct (G e He) as (q & tm & m & H);
    destruct (question_entry_shape _ _ _ _ _ _ H) as (_ & _ & [[N M]|[N M]]).
  - intros _; exact N.
  - unfold marked_or_deferred. destruct M as [M|M]; rewrite M; discriminate.
  - left; exact N.
  - right; exact N.
Qed.

Lemma self_equal_entries : forall questions d0,
  question_ids questions = map e_question_id d0 ->
  ids_self_equal questions = true ->
  Forall (fun e => py_eq (e_question_id e) (e_question_id e) = true) d0.
Proof.
  intros questions d0 E H. unfold ids_self_equal in H. rewrite E in H.
  apply Forall_forall. intros e He.
  exact (proj1 (forallb_forall _ _) H _ (in_map _ _ _ He)).
Qed.

Lemma ai_step_parse_fail : forall rt t S o d,
  extract_json rt (strip t) = None ->
  exists sugg, ai_step rt (Reply t) S o d = fallback sugg S o d.
Proof.
  intros rt t S o d H. unfold extract_json in H. unfold ai_step.
  destruct (has_braces (strip t)).
  - rewrite H. exists sugg_error. reflexivity.
  - exists sugg_no_json. reflexivity.
Qed.

(* ================================================================== *)
(** ** Fallback scoring *)

Lemma fallback_none : forall sugg S o d,
  fallback sugg S o d = None -> Exists (fun q => fallback_marks q = None) S.
Proof.
  intros sugg S; induction S as [|q S IH]; intros o d H; simpl in H; [discriminate|].
  destruct (fallback_marks q) as [fm|] eqn:FM.
  - apply Exists_cons_tl. exact (IH _ _ H).
  - apply Exists_cons_hd. exact FM.
Qed.

Lemma fallback_marks_some : forall e m,
  fallback_marks e = Some m -> m = fallback_value e.
Proof.
  intros e m H. unfold fallback_marks, fallback_value, py_float_mul, to_float in *.
  destruct (str_truthy (e_user_answer e)); [|congruence].
  destruct (Qle_bool _ _); congruence.
Qed.

Lemma fallback_marks_none : forall e,
  fallback_marks e = None ->
  str_truthy (e_user_answer e) = true /\ to_float (e_total_marks e) = None.
Proof.
  intros e H. unfold fallback_marks, py_float_mul in H.
  destruct (str_truthy (e_user_answer e)); [|discriminate].
  destruct (to_float (e_total_marks e)); [discriminate|]. split; reflexivity.
Qed.

(** C4 (as the code behaves).  When the grading reply does not parse (no
    brace pair, or the slice does not decode), every entry still deferred
    after the per-question pass gets [total_marks * 0.6] computed in floats
    ([round_binary64], for [3] marks the float [1.7999999999999998]) if its
    answer is non-empty and 0 otherwise, the feedback ["Answer provided -
    partial credit given"], and is no longer deferred.  The run fails only
    when [float(total_marks)] of such an entry raises [OverflowError]. *)
Theorem fallback_partial_credit (rt : Runtime) (qd : json) (ua : list (string * string))
    (t : string) (questions : list json) (total obtained : Q) (d0 : list entry)
    (Hq : questions_of qd = Some questions)
    (Hf : first_pass rt ua questions 0%Q 0%Q [] = Some (total, obtained, d0))
    (Hids : ids_self_equal questions = true)
    (Hp : extract_json rt (strip t) = None) :
  match evaluate_exam_answers rt qd ua (Reply t) with
  | Some r =>
      Forall2 (fun e e' =>
        deferred e = true ->
        e_marks_obtained e' =
          Some (if str_truthy (e_user_answer e)
                then round_binary64 (round_binary64 (e_total_marks e) * py_0_6)
                else 0%Q) /\
        e_feedback e' = Some fallback_feedback /\
        e_needs_ai e' = Some false)
        d0 (r_evaluations r)
  | None =>
      Exists (fun e => deferred e = true /\ str_truthy (e_user_answer e) = true /\
                       to_float (e_total_marks e) = None) d0
  end.
Proof.
  destruct (first_pass_facts _ _ _ _ _ _ Hf) as (Ids & _ & _).
  pose proof (self_equal_entries _ _ Ids Hids) as Self.
  unfold evaluate_exam_answers. rewrite Hq, Hf.
  destruct (filter deferred d0) as [|q S] eqn:Fd.
  - cbn [r_evaluations].
    apply Forall2_diag. intros x Hx D.
    pose proof (proj1 (Forall_forall _ _) (filter_nil_Forall _ _ Fd) x Hx) as D'.
    cbv beta in D'. congruence.
  - destruct (ai_step_parse_fail rt t (q :: S) obtained d0 Hp) as (sugg & A).
    rewrite A.
    destruct (fallback sugg (q :: S) obtained d0) as [[o' d']|] eqn:FB.
    + cbn [r_evaluations].
      change d0 with ([] ++ d0) in FB.
      destruct (fallback_gen sugg (q :: S) [] d0 obtained o' d' (Forall_nil _) Fd Self FB)
        as (post' & -> & R).
      refine (Forall2_weaken _ _ _ _ _ R).
      intros e e' Rel D. unfold fallback_rel in Rel. rewrite D in Rel.
      destruct Rel as (m & FM & ->). apply fallback_marks_some in FM. subst m.
      repeat split.
    + apply fallback_none in FB. rewrite <- Fd in FB.
      apply Exists_exists in FB as (e & He & N).
      apply filter_In in He as [He De].
      apply Exists_exists. exists e. split; [exact He|].
      split; [exact De| exact (fallback_marks_none e N)].
Qed.

Lemma fallback_partial_credit_witness :
  exists r, evaluate_exam_answers demo_rt demo_qd demo_answers (Reply "sorry") = Some r /\
    exists e m, nth_error (r_evaluations r) 1 = Some e /\ e_marks_obtained e = Some m /\
      m == 2026619832316723 # 1125899906842624 /\ e_feedback e = Some fallback_feedback.
Proof.
  pose proof (fallback_partial_credit demo_rt demo_qd demo_answers "sorry"
              [JObj demo_mcq; JObj demo_short] 4%Q 1%Q
              ltac:(let d := eval vm_compute in
                      (match first_pass demo_rt demo_answers
                               [JObj demo_mcq; JObj demo_short] 0%Q 0%Q [] with
                       | Some (_, _, d) => d | None => [] end) in exact d)
              ltac:(vm_compute; reflexivity) ltac:(vm_compute; reflexivity)
              ltac:(vm_compute; reflexivity) ltac:(vm_compute; reflexivity)) as H.
  destruct (evaluate_exam_answers demo_rt demo_qd demo_answers (Reply "sorry")) as [r|] eqn:E.
  - exists r; split; [reflexivity|].
    inversion H as [|e0 e0' d1 d1' Rhd R1 Ed Er]. clear Rhd.
    inversion R1 as [|e1 e1' d2 d2' Rhd' Rtl Ed' Er'].
    destruct (Rhd' eq_refl) as (M & F & _).
    eexists e1', _. split; [subst; reflexivity|].
    split; [exact M|]. split; [vm_compute; reflexivity| exact F].
  - vm_compute in E. discriminate.
Defined.

(** The fallback credit is a float product, not exactly 60%: for the 3-mark
    short question the entry gets [1.7999999999999998], not [1.8]. *)
Lemma fallback_credit_not_exact :
  exists r, evaluate_exam_answers demo_rt demo_qd demo_answers (Reply "sorry") = Some r /\
    exists e m, nth_error (r_evaluations r) 1 = Some e /\ e_total_marks e == 3 /\
      e_marks_obtained e = Some m /\ m < 18 # 10 /\ ~ (m == 18 # 10).
Proof.
  eexists; split; [vm_compute; reflexivity|].
  eexists _, _. split; [reflexivity|]. split; [vm_compute; reflexivity|].
  split; [reflexivity|]. split; [vm_compute; reflexivity| vm_compute; discriminate].
Qed.

(* ================================================================== *)
(** ** Entries left without marks *)

Lemma subseq_refl : forall {A} (l : list A), subseq l l.
Proof. intros A l; induction l; constructor; assumption. Qed.

Lemma subseq_trans : forall {A} (l1 l2 l3 : list A), subseq l1 l2 -> subseq l2 l3 -> subseq l1 l3.
Proof.
  intros A l1 l2 l3 H12 H23; revert l1 H12.
  induction H23 as [|x l l' H IH|x l l' H IH]; intros l1 H12.
  - exact H12.
  - apply subseq_skip, IH, H12.
  - inversion H12; subst.
    + apply subseq_skip, IH. assumption.
    + apply subseq_take, IH. assumption.
Qed.

Lemma subseq_nil_r : forall {A} (l : list A), subseq l [] -> l = [].
Proof. intros A l H; inversion H; reflexivity. Qed.

Lemma subseq_cons_inv : forall {A} (F : list A) x S,
  subseq F (x :: S) -> subseq F S \/ exists l, F = x :: l /\ subseq l S.
Proof.
  intros A F x S H; inversion H; subst; [left; assumption|right; eexists; split; [reflexivity|assumption]].
Qed.

Lemma update_first_subseq : forall id f d,
  (forall e, deferred (f e) = false) ->
  subseq (filter deferred (update_first id f d)) (filter deferred d).
Proof.
  intros id f d Hf; induction d as [|e d IH]; simpl; [constructor|].
  destruct (py_eq (e_question_id e) id && deferred e) eqn:E.
  - apply andb_true_iff in E as [_ D]. simpl. rewrite Hf, D.
    apply subseq_skip, subseq_refl.
  - simpl. destruct (deferred e); [apply subseq_take|]; exact IH.
Qed.

Lemma update_first_head : forall q D f d,
  (forall e, deferred (f e) = false) ->
  py_eq (e_question_id q) (e_question_id q) = true ->
  filter deferred d = q :: D ->
  filter deferred (update_first (e_question_id q) f d) = D.
Proof.
  intros q D f d Hf Sq; induction d as [|e d IH]; simpl; intros H; [discriminate|].
  destruct (deferred e) eqn:De.
  - injection H as Eq ED. subst q D. rewrite Sq. simpl. rewrite Hf. reflexivity.
  - rewrite andb_false_r. simpl. rewrite De. exact (IH H).
Qed.

Lemma reconcile_subseq : forall rt items o d o' d' x,
  reconcile rt items o d = (o', d', x) ->
  subseq (filter deferred d') (filter deferred d).
Proof.
  intros rt items; induction items as [|it items IH]; intros o d o' d' x H; simpl in H.
  - inversion H; subst; apply subseq_refl.
  - destruct it; try (inversion H; subst; apply subseq_refl).
    destruct (dict_lookup "question_id" kvs) as [q_id|]; [|inversion H; subst; apply subseq_refl].
    destruct (py_float rt _) as [marks|e]; [|inversion H; subst; apply subseq_refl].
    eapply subseq_trans; [exact (IH _ _ _ _ _ H)|].
    apply update_first_subseq. reflexivity.
Qed.

Lemma reconcile_exn_indep : forall rt items o d o' d',
  snd (reconcile rt items o d) = snd (reconcile rt items o' d').
Proof.
  intros rt items; induction items as [|it items IH]; intros o d o' d'; simpl; [reflexivity|].
  destruct it; try reflexivity.
  destruct (dict_lookup "question_id" kvs); [|reflexivity].
  destruct (py_float rt _); [apply IH|reflexivity].
Qed.

(** The fallback loop grades every deferred entry of the data whose deferred
    entries are a subsequence of the snapshot [S]. *)
Lemma fallback_clears : forall sugg S o d o' d',
  subseq (filter deferred d) S ->
  Forall (fun q => py_eq (e_question_id q) (e_question_id q) = true) S ->
  fallback sugg S o d = Some (o', d') ->
  filter deferred d' = [].
Proof.
  intros sugg S; induction S as [|q S IH]; intros o d o' d' Sub Self H; simpl in H.
  - inversion H; subst. exact (subseq_nil_r _ Sub).
  - destruct (fallback_marks q) as [fm|]; [|discriminate].
    inversion Self as [|q' S' Sq SelfS]; subst.
    eapply IH; [|exact SelfS|exact H].
    destruct (subseq_cons_inv _ _ _ Sub) as [Sub'|(l & EF & Sub')].
    + eapply subseq_trans; [|exact Sub'].
      apply update_first_subseq. intros; reflexivity.
    + rewrite (update_first_head q l (fun e => graded e fm fallback_feedback sugg) d
                 (fun _ => eq_refl) Sq EF). exact Sub'.
Qed.

Lemma marked_of_no_deferred : forall d,
  Forall marked_or_deferred d -> filter deferred d = [] ->
  Forall (fun e => e_marks_obtained e <> None) d.
Proof.
  intros d M F. apply Forall_forall. intros e He N.
  pose proof (proj1 (Forall_forall _ _) M e He N) as Na.
  assert (In e (filter deferred d)) by (apply filter_In; split; [exact He| unfold deferred; rewrite Na; reflexivity]).
  rewrite F in H. destruct H.
Qed.

(** C2 (as the code behaves).  In every completed run, an entry without
    [marks_obtained] is still flagged [needs_ai_evaluation = True].  Every
    entry has marks when the fallback runs: when the grading reply does not
    parse, when the grading call raises, and when the reconciliation of a
    decoded reply raises (then after the entries it already updated).  A
    reply that is reconciled without error but does not echo a deferred
    question leaves that entry without marks. *)
Theorem unmarked_entries_stay_deferred (rt : Runtime) (qd : json) (ua : list (string * string))
    (reply : model_reply) (r : eval_result)
    (Hev : evaluate_exam_answers rt qd ua reply = Some r) :
  Forall marked_or_deferred (r_evaluations r) /\
  ((forall t er items, reply = Reply t -> extract_json rt (strip t) = Some (JObj er) ->
      py_iter (dict_get er "evaluations" (JArr [])) = Some items ->
      exists o d, snd (reconcile rt items o d) <> None) ->
   (forall questions, questions_of qd = Some questions -> ids_self_equal questions = true) ->
   Forall (fun e => e_marks_obtained e <> None) (r_evaluations r)).
Proof.
  destruct (evaluate_inv _ _ _ _ _ Hev)
    as (qs & t & o & d0 & o' & d' & Hq & Hf & Step & ->).
  cbn [r_evaluations].
  destruct (first_pass_facts _ _ _ _ _ _ Hf) as (Ids & MD & NA).
  assert (MD' : Forall marked_or_deferred d').
  { destruct Step as [(_ & _ & ->)|(_ & A)]; [exact MD|].
    exact (ai_step_mod _ _ _ _ _ _ _ MD A). }
  split; [exact MD'|].
  intros Hr Hself. apply (marked_of_no_deferred _ MD').
  pose proof (self_equal_entries _ _ Ids (Hself qs Hq)) as Self.
  assert (SelfS : Forall (fun q => py_eq (e_question_id q) (e_question_id q) = true)
                         (filter deferred d0)).
  { apply Forall_forall. intros q Hq0. apply filter_In in Hq0 as [Hq0 _].
    exact (proj1 (Forall_forall _ _) Self q Hq0). }
  destruct Step as [(Fd & _ & ->)|(_ & A)]; [exact Fd|].
  unfold ai_step in A.
  destruct reply as [text|e|e].
  - destruct (has_braces (strip text)) eqn:B.
    + destruct (rt_loads rt _) as [v|] eqn:L.
      * destruct v as [| | | | | |er]; try discriminate.
        destruct (py_iter _) as [items|] eqn:I; [|discriminate].
        destruct (reconcile rt items o d0) as [[o1 d1] [x|]] eqn:R.
        -- pose proof (reconcile_subseq _ _ _ _ _ _ _ R) as Sub.
           destruct x; try discriminate; (eapply fallback_clears; [exact Sub|exact SelfS|exact A]).
        -- exfalso. destruct (Hr text er items eq_refl) as (o2 & d2 & N); [|exact I|].
           ++ unfold extract_json. rewrite B. exact L.
           ++ apply N. rewrite (reconcile_exn_indep rt items o2 d2 o d0), R. reflexivity.
      * eapply fallback_clears; [apply subseq_refl|exact SelfS|exact A].
    + eapply fallback_clears; [apply subseq_refl|exact SelfS|exact A].
  - destruct e; try discriminate; (eapply fallback_clears; [apply subseq_refl|exact SelfS|exact A]).
  - destruct e; try discriminate; (eapply fallback_clears; [apply subseq_refl|exact SelfS|exact A]).
Qed.

(** The reply whose second item has no [question_id]: the reconciliation
    grades question 2, raises [KeyError], and the fallback runs. *)
Lemma unmarked_entries_stay_deferred_witness :
  exists r, evaluate_exam_answers demo_rt demo_qd demo_answers (Reply demo_partial_reply) = Some r /\
    Forall (fun e => e_marks_obtained e <> None) (r_evaluations r).
Proof.
  eexists; split; [vm_compute; reflexivity|].
  apply (proj2 (unmarked_entries_stay_deferred demo_rt demo_qd demo_answers
                  (Reply demo_partial_reply) _ ltac:(vm_compute; reflexivity))).
  - intros t er items E X I. inversion E; subst t.
    vm_compute in X. inversion X; subst er. vm_compute in I. inversion I; subst items.
    exists 0%Q, []. vm_compute. discriminate.
  - intros qs Hq. vm_compute in Hq. inversion Hq. vm_compute. reflexivity.
Defined.

(** A reply that parses but lists no evaluation leaves the short answer
    deferred, with no [marks_obtained]. *)
Lemma unechoed_entry_left_unmarked :
  exists r, evaluate_exam_answers demo_rt demo_qd demo_answers (Reply demo_no_evaluations) = Some r /\
    Exists (fun e => e_marks_obtained e = None /\ e_needs_ai e = Some true) (r_evaluations r).
Proof.
  eexists; split; [vm_compute; reflexivity|].
  cbn [r_evaluations]. apply Exists_cons_tl, Exists_cons_hd. split; reflexivity.
Qed.

(* ================================================================== *)
(** ** Rounding to binary64 *)

Section Binary64.
Local Open Scope Q_scope.

Lemma two_ne_0 : ~ (2 == 0).
Proof. discriminate. Qed.

Lemma Qpow2_pos : forall e, 0 < 2 ^ e.
Proof. intros e. apply Qpower_0_lt. reflexivity. Qed.

Lemma Qpow2_mono : forall a b, (a <= b)%Z -> 2 ^ a <= 2 ^ b.
Proof. intros a b H. apply Qpower_le_compat_l; [exact H| discriminate]. Qed.

Lemma Qpow2_Z : forall n, (0 <= n)%Z -> 2 ^ n == inject_Z (2 ^ n).
Proof. intros n H. rewrite Zpower_Qpower by exact H. reflexivity. Qed.

Lemma Qpow2_plus : forall a b, 2 ^ (a + b) == 2 ^ a * 2 ^ b.
Proof. intros a b. apply Qpower_plus. discriminate. Qed.

Lemma Q_num_den : forall m : Q, m == inject_Z (Qnum m) / inject_Z (Zpos (Qden m)).
Proof.
  intros [n d]. unfold Qdiv, Qeq, Qmult, Qinv, inject_Z; simpl. lia.
Qed.

Lemma Qle_int_iff : forall (m : Q) (N : Z),
  m <= inject_Z N <-> (Qnum m <= N * Zpos (Qden m))%Z.
Proof. intros [n d] N. unfold Qle, inject_Z; simpl. lia. Qed.

Lemma Qlt_int_iff : forall (m : Q) (N : Z),
  m < inject_Z N <-> (Qnum m < N * Zpos (Qden m))%Z.
Proof. intros [n d] N. unfold Qlt, inject_Z; simpl. lia. Qed.

Lemma rne_div_le_int : forall a b N, (0 < b)%Z -> (a <= N * b)%Z -> (rne_div a b <= N)%Z.
Proof.
  intros a b N Hb H. unfold rne_div.
  pose proof (Z.div_mod a b ltac:(lia)) as D.
  pose proof (Z.mod_pos_bound a b Hb) as M.
  assert (Q1 : (a / b <= N)%Z) by (apply Z.div_le_upper_bound; lia).
  assert (Q2 : (0 < a mod b)%Z -> (a / b < N)%Z) by nia.
  destruct (Z.compare_spec (2 * (a mod b)) b); [destruct (Z.even (a / b))| |]; lia.
Qed.

Lemma rne_div_nonneg : forall a b, (0 <= a)%Z -> (0 < b)%Z -> (0 <= rne_div a b)%Z.
Proof.
  intros a b Ha Hb. unfold rne_div.
  assert (0 <= a / b)%Z by (apply Z.div_pos; lia).
  destruct (Z.compare_spec (2 * (a mod b)) b); [destruct (Z.even (a / b))| |]; lia.
Qed.

Lemma Qlog2_floor_spec : forall x, 0 < x ->
  2 ^ (Qlog2_floor x) <= x /\ x < 2 ^ (Qlog2_floor x + 1).
Proof.
  intros [n d] Hx.
  assert (Hn : (0 < n)%Z) by (unfold Qlt in Hx; simpl in Hx; lia).
  unfold Qlog2_floor; simpl Qnum; simpl Qden.
  set (a := Z.log2 n). set (b := Z.log2 (Zpos d)).
  destruct (Z.log2_spec n Hn) as [A1 A2]. fold a in A1, A2.
  destruct (Z.log2_spec (Zpos d) ltac:(lia)) as [B1 B2]. fold b in B1, B2.
  assert (a0 : (0 <= a)%Z) by apply Z.log2_nonneg.
  assert (b0 : (0 <= b)%Z) by apply Z.log2_nonneg.
  assert (Up : n # d < 2 ^ (a - b + 1)).
  { apply (Qmult_lt_r _ _ (2 ^ b)); [apply Qpow2_pos|].
    rewrite <- Qpow2_plus. replace (a - b + 1 + b)%Z with (Z.succ a) by lia.
    rewrite !Qpow2_Z by lia. unfold Qlt, Qmult, inject_Z; simpl. nia. }
  assert (Lo : 2 ^ (a - b - 1) < n # d).
  { apply (Qmult_lt_r _ _ (2 ^ Z.succ b)); [apply Qpow2_pos|].
    rewrite <- Qpow2_plus. replace (a - b - 1 + Z.succ b)%Z with a by lia.
    rewrite !Qpow2_Z by lia. unfold Qlt, Qmult, inject_Z; simpl. nia. }
  destruct (Qle_bool (2 ^ (a - b)) (n # d)) eqn:E.
  - apply Qle_bool_iff in E. split; [exact E| exact Up].
  - split.
    + apply Qlt_le_weak. exact Lo.
    + replace (a - b - 1 + 1)%Z with (a - b)%Z by lia.
      apply Qnot_le_lt. intros C. apply Qle_bool_iff in C. congruence.
Qed.

Lemma binary64_exp_cases : forall x,
  (binary64_exp x = -1074)%Z \/
  (binary64_exp x = Qlog2_floor x - 52 /\ -1074 < binary64_exp x)%Z.
Proof. intros x. unfold binary64_exp. lia. Qed.

Lemma binary64_exp_ge : forall x, (Qlog2_floor x - 52 <= binary64_exp x)%Z.
Proof. intros x. unfold binary64_exp. lia. Qed.

Lemma round_pos_le : forall x y, 0 < x -> x <= y -> is_binary64 y -> round_pos x <= y.
Proof.
  intros x y Hx Hxy (k & f & Hk & Hf & Hy).
  unfold round_pos. set (e := binary64_exp x). set (m := x * 2 ^ (- e)).
  destruct (Z_le_gt_dec e f) as [Hef|Hef].
  - assert (Hm : m <= inject_Z (k * 2 ^ (f - e))).
    { unfold m. rewrite inject_Z_mult, <- Qpow2_Z by lia.
      apply Qle_trans with (y * 2 ^ (- e)).
      - apply Qmult_le_compat_r; [exact Hxy| apply Qlt_le_weak, Qpow2_pos].
      - rewrite Hy, <- Qmult_assoc, <- Qpow2_plus.
        replace (f + - e)%Z with (f - e)%Z by lia. apply Qle_refl. }
    apply Qle_int_iff in Hm.
    pose proof (rne_div_le_int _ _ _ (Pos2Z.is_pos _) Hm) as R.
    rewrite Hy.
    apply Qle_trans with (inject_Z (k * 2 ^ (f - e)) * 2 ^ e).
    + apply Qmult_le_compat_r; [rewrite <- Zle_Qle; exact R| apply Qlt_le_weak, Qpow2_pos].
    + rewrite inject_Z_mult, <- (Qpow2_Z (f - e)) by lia.
      rewrite <- Qmult_assoc, <- Qpow2_plus.
      replace (f - e + e)%Z with f by lia. apply Qle_refl.
  - exfalso.
    destruct (binary64_exp_cases x) as [E|[E _]]; [fold e in E; lia|]. fold e in E.
    destruct (Qlog2_floor_spec x Hx) as [L _].
    assert (C : y < 2 ^ (Qlog2_floor x)).
    { rewrite Hy. apply Qlt_le_trans with (2 ^ 53 * 2 ^ f).
      - apply Qmult_lt_r; [apply Qpow2_pos|].
        rewrite (Qpow2_Z 53) by lia. rewrite <- Zlt_Qlt. lia.
      - rewrite <- Qpow2_plus. apply Qpow2_mono. lia. }
    apply (Qlt_irrefl y). apply Qlt_le_trans with (2 ^ Qlog2_floor x); [exact C|].
    apply Qle_trans with x; assumption.
Qed.

Lemma round_pos_nonneg : forall x, 0 < x -> 0 <= round_pos x.
Proof.
  intros x Hx. unfold round_pos.
  set (e := binary64_exp x). set (m := x * 2 ^ (- e)).
  assert (Hm : 0 <= m) by (unfold m; apply Qmult_le_0_compat; [apply Qlt_le_weak, Hx| apply Qlt_le_weak, Qpow2_pos]).
  assert (Hn : (0 <= Qnum m)%Z) by (clear -Hm; destruct m as [n d]; unfold Qle in Hm; simpl in *; lia).
  clearbody m.
  apply Qmult_le_0_compat; [|apply Qlt_le_weak, Qpow2_pos].
  pose proof (rne_div_nonneg (Qnum m) (Zpos (Qden m)) Hn (Pos2Z.is_pos _)).
  unfold Qle, inject_Z; simpl. lia.
Qed.

Lemma round_pos_binary64 : forall x, 0 < x -> is_binary64 (round_pos x).
Proof.
  intros x Hx. unfold round_pos.
  set (e := binary64_exp x). set (m := x * 2 ^ (- e)).
  assert (Hm0 : 0 <= m) by (unfold m; apply Qmult_le_0_compat; [apply Qlt_le_weak, Hx| apply Qlt_le_weak, Qpow2_pos]).
  assert (Hn : (0 <= Qnum m)%Z) by (clear -Hm0; destruct m as [n d]; unfold Qle in Hm0; simpl in *; lia).
  assert (Hm : m <= inject_Z (2 ^ 53)).
  { destruct (Qlog2_floor_spec x Hx) as [_ U]. pose proof (binary64_exp_ge x) as G. fold e in G.
    unfold m. rewrite <- Qpow2_Z by lia.
    apply Qle_trans with (2 ^ (Qlog2_floor x + 1) * 2 ^ (- e)).
    - apply Qmult_le_compat_r; [apply Qlt_le_weak, U| apply Qlt_le_weak, Qpow2_pos].
    - rewrite <- Qpow2_plus. apply Qpow2_mono. lia. }
  clearbody m. apply Qle_int_iff in Hm.
  pose proof (rne_div_le_int _ _ _ (Pos2Z.is_pos _) Hm) as R.
  pose proof (rne_div_nonneg (Qnum m) (Zpos (Qden m)) Hn (Pos2Z.is_pos _)) as R0.
  set (N := rne_div (Qnum m) (Zpos (Qden m))) in *.
  assert (He : (-1074 <= e)%Z) by (unfold e, binary64_exp; lia).
  destruct (Z.eq_dec N (2 ^ 53)) as [EN|EN].
  - exists (2 ^ 52)%Z, (e + 1)%Z. split; [lia|]. split; [lia|].
    rewrite EN, <- (Qpow2_Z 52), <- (Qpow2_Z 53) by lia.
    rewrite <- !Qpow2_plus. replace (53 + e)%Z with (52 + (e + 1))%Z by lia. reflexivity.
  - exists N, e. split; [lia|]. split; [exact He| reflexivity].
Qed.

Lemma is_binary64_nonneg : forall y, is_binary64 y -> 0 <= y.
Proof.
  intros y (k & f & Hk & _ & Hy). rewrite Hy.
  apply Qmult_le_0_compat; [|apply Qlt_le_weak, Qpow2_pos].
  unfold Qle, inject_Z; simpl; lia.
Qed.

Lemma is_binary64_compat : forall x y, x == y -> is_binary64 x -> is_binary64 y.
Proof. intros x y E (k & f & H1 & H2 & H3). exists k, f. rewrite <- E. auto. Qed.

Lemma is_binary64_zero : forall y, y == 0 -> is_binary64 y.
Proof. intros y Hy. exists 0%Z, 0%Z. split; [lia|]. split; [lia|]. rewrite Hy. reflexivity. Qed.

Lemma round_binary64_le : forall x y, 0 <= x -> x <= y -> is_binary64 y -> round_binary64 x <= y.
Proof.
  intros x y Hx Hxy Hy. unfold round_binary64.
  destruct (Qcompare_spec x 0) as [E|E|E].
  - apply is_binary64_nonneg, Hy.
  - exfalso. apply (Qlt_irrefl 0). apply Qle_lt_trans with x; assumption.
  - apply round_pos_le; assumption.
Qed.

Lemma round_binary64_nonneg : forall x, 0 <= x -> 0 <= round_binary64 x.
Proof.
  intros x Hx. unfold round_binary64.
  destruct (Qcompare_spec x 0) as [E|E|E].
  - apply Qle_refl.
  - exfalso. apply (Qlt_irrefl 0). apply Qle_lt_trans with x; assumption.
  - apply round_pos_nonneg, E.
Qed.

Lemma round_binary64_is_binary64 : forall x, 0 <= round_binary64 x -> is_binary64 (round_binary64 x).
Proof.
  intros x H. unfold round_binary64 in *.
  destruct (Qcompare_spec x 0) as [E|E|E].
  - apply is_binary64_zero. reflexivity.
  - apply is_binary64_zero.
    assert (P : 0 < - x) by (apply Qopp_lt_compat in E; exact E).
    pose proof (round_pos_nonneg _ P) as N.
    apply Qle_antisym; [|exact H].
    apply Qopp_le_compat in N. exact N.
  - apply round_pos_binary64, E.
Qed.

Lemma py_0_6_value : py_0_6 == 5404319552844595 # 9007199254740992.
Proof. vm_compute. reflexivity. Qed.

Lemma int_bracket : forall z, (2 ^ 53 <= z)%Z ->
  exists K s, (2 ^ 52 <= K < 2 ^ 53)%Z /\ (1 <= s)%Z /\
    (K * 2 ^ s <= z < (K + 1) * 2 ^ s)%Z.
Proof.
  intros z Hz.
  assert (Z0 : (0 < z)%Z) by lia.
  destruct (Z.log2_spec z Z0) as [L1 L2].
  assert (G : (53 <= Z.log2 z)%Z).
  { apply Z.log2_le_pow2; lia. }
  set (s := (Z.log2 z - 52)%Z).
  assert (P : (0 < 2 ^ s)%Z) by (apply Z.pow_pos_nonneg; lia).
  exists (z / 2 ^ s)%Z, s.
  pose proof (Z.div_mod z (2 ^ s) ltac:(lia)) as D.
  pose proof (Z.mod_pos_bound z (2 ^ s) P) as M.
  assert (E1 : (2 ^ Z.log2 z = 2 ^ 52 * 2 ^ s)%Z).
  { rewrite <- Z.pow_add_r by lia. f_equal. unfold s. lia. }
  assert (E2 : (2 ^ Z.succ (Z.log2 z) = 2 ^ 53 * 2 ^ s)%Z).
  { rewrite <- Z.pow_add_r by lia. f_equal. unfold s. lia. }
  split; [split|split; [unfold s; lia|]].
  - apply Z.div_le_lower_bound; lia.
  - apply Z.div_lt_upper_bound; lia.
  - nia.
Qed.

Lemma fallback_value_range : forall t u, 0 <= t -> py_number t -> to_float t = Some u ->
  0 <= round_binary64 (u * py_0_6) /\ round_binary64 (u * py_0_6) <= t.
Proof.
  intros t u Ht Hn Hu. unfold to_float in Hu.
  destruct (Qle_bool _ _); [discriminate|]. injection Hu as <-.
  assert (C0 : 0 <= py_0_6) by (rewrite py_0_6_value; unfold Qle; simpl; lia).
  assert (C1 : py_0_6 <= 1) by (rewrite py_0_6_value; unfold Qle; simpl; lia).
  pose proof (round_binary64_nonneg t Ht) as U0.
  assert (P0 : 0 <= round_binary64 t * py_0_6) by (apply Qmult_le_0_compat; assumption).
  split; [apply round_binary64_nonneg, P0|].
  assert (Below : forall y, is_binary64 y -> round_binary64 t * py_0_6 <= y -> y <= t ->
                  round_binary64 (round_binary64 t * py_0_6) <= t).
  { intros y Hy H1 H2. apply Qle_trans with y; [|exact H2].
    apply round_binary64_le; assumption. }
  assert (Direct : is_binary64 t -> round_binary64 (round_binary64 t * py_0_6) <= t).
  { intros Bt. apply (Below t Bt); [|apply Qle_refl].
    apply Qle_trans with (round_binary64 t * 1).
    - apply Qmult_le_compat_nonneg; [split; [exact U0|apply Qle_refl]|split; assumption].
    - rewrite Qmult_1_r. apply round_binary64_le; [exact Ht|apply Qle_refl|exact Bt]. }
  destruct Hn as [[z Hz]|[q Hq]].
  - assert (Z0 : (0 <= z)%Z) by (rewrite Hz in Ht; unfold Qle, inject_Z in Ht; simpl in Ht; lia).
    destruct (Z_lt_le_dec z (2 ^ 53)) as [Small|Big].
    + apply Direct. exists z, 0%Z. split; [lia|]. split; [lia|].
      rewrite Hz. simpl. rewrite Qmult_1_r. reflexivity.
    + destruct (int_bracket z Big) as (K & s & HK & Hs & Kz1 & Kz2).
      assert (P : (0 < 2 ^ s)%Z) by (apply Z.pow_pos_nonneg; lia).
      assert (Hi : is_binary64 (inject_Z ((K + 1) * 2 ^ s))).
      { destruct (Z.eq_dec (K + 1) (2 ^ 53)) as [E|E].
        - exists (2 ^ 52)%Z, (s + 1)%Z. split; [lia|]. split; [lia|].
          rewrite E, inject_Z_mult, <- !Qpow2_Z by lia. rewrite <- !Qpow2_plus.
          replace (53 + s)%Z with (52 + (s + 1))%Z by lia. reflexivity.
        - exists (K + 1)%Z, s. split; [lia|]. split; [lia|].
          rewrite inject_Z_mult, Qpow2_Z by lia. reflexivity. }
      apply (Below (inject_Z (K * 2 ^ s))).
      * exists K, s. split; [lia|]. split; [lia|]. rewrite inject_Z_mult, Qpow2_Z by lia. reflexivity.
      * apply Qle_trans with (inject_Z ((K + 1) * 2 ^ s) * py_0_6).
        -- apply Qmult_le_compat_r; [|exact C0].
           apply round_binary64_le; [exact Ht| |exact Hi].
           rewrite Hz. rewrite <- Zle_Qle. lia.
        -- rewrite py_0_6_value. unfold Qle, Qmult, inject_Z; simpl.
           assert ((K + 1) * 5404319552844595 <= K * 9007199254740992)%Z by lia. nia.
      * rewrite Hz. rewrite <- Zle_Qle. exact Kz1.
  - apply Direct. apply (is_binary64_compat (round_binary64 q)); [symmetry; exact Hq|].
    apply round_binary64_is_binary64. rewrite <- Hq. exact Ht.
Qed.

End Binary64.

(* ================================================================== *)
(** ** Range of the marks *)

Lemma distinct_ids_in : forall d0 e q,
  distinct_ids (map e_question_id d0) = true -> In e d0 -> In q d0 ->
  py_eq (e_question_id e) (e_question_id q) = true -> e = q.
Proof.
  intros d0; induction d0 as [|a d0 IH]; intros e q D He Hq E; [destruct He|].
  simpl in D. apply andb_true_iff in D as [D Drest]. apply andb_true_iff in D as [_ Dall].
  pose proof (proj1 (forallb_forall _ _) Dall) as All.
  destruct He as [<-|He], Hq as [<-|Hq]; auto.
  - specialize (All _ (in_map e_question_id _ _ Hq)). cbv beta in All.
    rewrite E in All. discriminate.
  - specialize (All _ (in_map e_question_id _ _ He)). cbv beta in All.
    rewrite E, andb_false_r in All. discriminate.
Qed.

Lemma fallback_marks_range : forall q m,
  (0 <= e_total_marks q)%Q -> py_number (e_total_marks q) ->
  fallback_marks q = Some m -> (0 <= m)%Q /\ (m <= e_total_marks q)%Q.
Proof.
  intros q m T N H. unfold fallback_marks in H. destruct (str_truthy (e_user_answer q)).
  - unfold py_float_mul in H. destruct (to_float (e_total_marks q)) as [u|] eqn:U; [|discriminate].
    injection H as <-. exact (fallback_value_range _ _ T N U).
  - injection H as <-. split; [apply Qle_refl|exact T].
Qed.

Section MarksRange.

Variable rt : Runtime.
(** The marks the model returned. *)
Variable ms : list Q.
(** The entries of the per-question pass. *)
Variable d0 : list entry.
Hypothesis Hdist : forall e q, In e d0 -> In q d0 ->
  py_eq (e_question_id e) (e_question_id q) = true -> e = q.
(** Each total is a number Python holds: an [int] or a [float]. *)
Hypothesis Hnum : forall e, In e d0 -> py_number (e_total_marks e).

Lemma update_first_range : forall id g fb sg d,
  (forall e, In e d0 -> py_eq (e_question_id e) id = true ->
             marks_within ms (graded e (g e) fb sg)) ->
  Forall (fun e => (deferred e = true -> In e d0) /\ marks_within ms e) d ->
  Forall (fun e => (deferred e = true -> In e d0) /\ marks_within ms e)
         (update_first id (fun e => graded e (g e) fb sg) d).
Proof.
  intros id g fb sg d G F.
  eapply Forall_of_Forall2; [apply update_first_spec| |exact F].
  intros e e' [->|(D & E & ->)] [Hin Hm]; [split; assumption|].
  split; [cbn; discriminate|]. exact (G e (Hin D) E).
Qed.

Lemma reconcile_range : forall items o d o' d' x,
  incl (flat_map (item_marks rt) items) ms ->
  Forall (fun e => (deferred e = true -> In e d0) /\ marks_within ms e) d ->
  reconcile rt items o d = (o', d', x) ->
  Forall (fun e => (deferred e = true -> In e d0) /\ marks_within ms e) d'.
Proof.
  intros items; induction items as [|it items IH]; intros o d o' d' x Inc F H; simpl in H.
  - inversion H; subst; exact F.
  - destruct it as [| | | | | |kvs]; try (inversion H; subst; exact F).
    destruct (dict_lookup "question_id" kvs) as [q_id|] eqn:L; [|inversion H; subst; exact F].
    destruct (py_float rt _) as [marks|e] eqn:P; [|inversion H; subst; exact F].
    eapply IH; [| |exact H].
    + intros a Ha. apply Inc. simpl. apply in_or_app. right. exact Ha.
    + apply update_first_range; [|exact F].
      intros e _ _ m M. cbn in M. inversion M; subst. right. apply Inc.
      simpl. rewrite L, P. left. reflexivity.
Qed.

Lemma fallback_range : forall sugg S o d o' d',
  (forall q, In q S -> In q d0) ->
  Forall (fun e => (deferred e = true -> In e d0) /\ marks_within ms e) d ->
  fallback sugg S o d = Some (o', d') ->
  Forall (fun e => (deferred e = true -> In e d0) /\ marks_within ms e) d'.
Proof.
  intros sugg S; induction S as [|q S IH]; intros o d o' d' Sin F H; simpl in H.
  - inversion H; subst; exact F.
  - destruct (fallback_marks q) as [fm|] eqn:FM; [|discriminate].
    eapply IH; [intros q' Hq'; apply Sin; right; exact Hq'| |exact H].
    apply (update_first_range _ (fun _ => fm)); [|exact F].
    intros e He E m M. pose proof (Sin q (or_introl eq_refl)) as Hq.
    rewrite (Hdist e q He Hq E) in M |- *.
    cbn in M. injection M as Em. subst m. left. cbn. intros T.
    exact (fallback_marks_range q fm T (Hnum q Hq) FM).
Qed.

Lemma ai_step_range : forall reply S o d o' d',
  incl (model_marks rt reply) ms ->
  (forall q, In q S -> In q d0) ->
  Forall (fun e => (deferred e = true -> In e d0) /\ marks_within ms e) d ->
  ai_step rt reply S o d = Some (o', d') ->
  Forall (fun e => (deferred e = true -> In e d0) /\ marks_within ms e) d'.
Proof.
  intros reply S o d o' d' Inc Sin F H. unfold ai_step in H. unfold model_marks in Inc.
  destruct reply as [text|e|e].
  - destruct (has_braces (strip text)).
    + destruct (rt_loads rt _) as [v|].
      * destruct v as [| | | | | |er]; try discriminate.
        destruct (py_iter _) as [items|]; [|discriminate].
        destruct (reconcile rt items o d) as [[o1 d1] [x|]] eqn:R.
        -- apply reconcile_range in R; [|exact Inc|exact F].
           destruct x; try discriminate; (eapply fallback_range; [exact Sin|exact R|exact H]).
        -- inversion H; subst. eapply reconcile_range; eassumption.
      * eapply fallback_range; [exact Sin|exact F|exact H].
    + eapply fallback_range; [exact Sin|exact F|exact H].
  - destruct e; try discriminate; (eapply fallback_range; [exact Sin|exact F|exact H]).
  - destruct e; try discriminate; (eapply fallback_range; [exact Sin|exact F|exact H]).
Qed.

End MarksRange.

(** C3 (as the code behaves).  When the question ids are distinct, every
    entry's [marks_obtained] lies in [0, total_marks] (for a question whose
    marks are not negative), unless it is a value the model returned: the
    reconciliation takes [float(marks_obtained)] as is, with no clamping. *)
Theorem marks_in_range_unless_from_model (rt : Runtime) (qd : json)
    (ua : list (string * string)) (reply : model_reply) (r : eval_result)
    (questions : list json)
    (Hev : evaluate_exam_answers rt qd ua reply = Some r)
    (Hq : questions_of qd = Some questions)
    (Hd : distinct_ids (question_ids questions) = true) :
  Forall (marks_within (model_marks rt reply)) (r_evaluations r).
Proof.
  destruct (evaluate_inv _ _ _ _ _ Hev)
    as (qs & t & o & d0 & o' & d' & Hq' & Hf & Step & ->).
  rewrite Hq in Hq'. inversion Hq'; subst qs. cbn [r_evaluations].
  destruct (first_pass_facts _ _ _ _ _ _ Hf) as (Ids & _ & _).
  rewrite Ids in Hd.
  assert (Init : Forall (fun e => (deferred e = true -> In e d0) /\
                                  marks_within (model_marks rt reply) e) d0).
  { apply Forall_forall. intros e He. split; [intros _; exact He|].
    destruct (first_pass_entries _ _ _ _ _ _ _ _ _ Hf) as (es & E & Fes).
    simpl in E; subst es.
    destruct (Forall2_In_r _ _ _ _ Fes He) as (q & _ & tm & m & QE).
    destruct (question_entry_shape _ _ _ _ _ _ QE) as (_ & T & [[_ M]|[_ [M|M]]]);
      intros m' M'; rewrite M' in M; try discriminate; inversion M; subst m'; left; intros T0.
    - split; [apply Qle_refl|exact T0].
    - rewrite <- T. split; [exact T0|apply Qle_refl]. }
  enough (Fd : Forall (fun e => (deferred e = true -> In e d0) /\
                                marks_within (model_marks rt reply) e) d').
  { eapply Forall_impl; [|exact Fd]. intros e [_ W]; exact W. }
  destruct Step as [(_ & _ & ->)|(_ & A)]; [exact Init|].
  assert (Num : forall e, In e d0 -> py_number (e_total_marks e)).
  { intros e He.
    destruct (first_pass_entries _ _ _ _ _ _ _ _ _ Hf) as (es & E & Fes).
    simpl in E; subst es.
    destruct (Forall2_In_r _ _ _ _ Fes He) as (q & _ & tm & m & QE).
    exact (question_entry_number _ _ _ _ _ _ QE). }
  eapply (ai_step_range rt _ d0 (fun e q => distinct_ids_in d0 e q Hd) Num);
    [| |exact Init|exact A].
  - intros a Ha; exact Ha.
  - intros q Hq0. apply filter_In in Hq0. exact (proj1 Hq0).
Qed.

Lemma marks_in_range_unless_from_model_witness :
  exists r, evaluate_exam_answers demo_rt demo_qd demo_answers (Reply demo_over_marks) = Some r /\
    Forall (marks_within (model_marks demo_rt (Reply demo_over_marks))) (r_evaluations r).
Proof.
  eexists; split; [vm_compute; reflexivity|].
  exact (marks_in_range_unless_from_model demo_rt demo_qd demo_answers (Reply demo_over_marks) _
           [JObj demo_mcq; JObj demo_short]
           ltac:(vm_compute; reflexivity) ltac:(vm_compute; reflexivity)
           ltac:(vm_compute; reflexivity)).
Defined.

(** A model that returns 10 marks for a 3-mark question: the entry keeps 10. *)
Lemma model_marks_not_clamped :
  exists r, evaluate_exam_answers demo_rt demo_qd demo_answers (Reply demo_over_marks) = Some r /\
    Exists (fun e => exists m, e_marks_obtained e = Some m /\ (e_total_marks e < m)%Q)
           (r_evaluations r).
Proof.
  eexists; split; [vm_compute; reflexivity|].
  cbn [r_evaluations]. apply Exists_cons_tl, Exists_cons_hd.
  eexists. split; [vm_compute; reflexivity|]. vm_compute. reflexivity.
Qed.

(* ================================================================== *)
(** ** Aggregates *)

(** A reply whose second item has no [question_id]: the first item grades
    question 2 with 2 marks, then [KeyError] sends the run to the fallback,
    which adds the float [3 * 0.6 = 1.7999999999999998] for question 2 to
    [obtained_marks] again, without changing its entry.  [total_marks] is the
    sum of the entries' totals (4), but [obtained_marks] is the float 4.8
    ([3 + 1.7999999999999998], exactly) while the entries' marks sum to 3. *)
Lemma obtained_marks_exceed_entries :
  exists r, evaluate_exam_answers demo_rt demo_qd demo_answers (Reply demo_partial_reply) = Some r /\
    r_total_marks r == entries_total (r_evaluations r) /\
    r_obtained_marks r == 5404319552844595 # 1125899906842624 /\
    entries_obtained (r_evaluations r) == 3 /\
    ~ (r_obtained_marks r == entries_obtained (r_evaluations r)).
Proof.
  eexists; split; [vm_compute; reflexivity|].
  vm_compute. split; [reflexivity|]. split; [reflexivity|]. split; [reflexivity|].
  discriminate.
Qed.

(* ================================================================== *)
(** ** Overlap of two bounding boxes *)

Lemma py_max_bounds : forall a b, a <= py_max a b /\ b <= py_max a b.
Proof.
  intros a b. unfold py_max, py_gt.
  destruct (Qle_bool b a) eqn:E; cbn.
  - apply Qle_bool_iff in E. split; [apply Qle_refl|exact E].
  - assert (L : ~ b <= a) by (intro X; apply Qle_bool_iff in X; congruence).
    apply Qnot_le_lt in L. split; [apply Qlt_le_weak, L|apply Qle_refl].
Qed.

Lemma py_min_bounds : forall a b, py_min a b <= a /\ py_min a b <= b.
Proof.
  intros a b. unfold py_min, py_gt.
  destruct (Qle_bool a b) eqn:E; cbn.
  - apply Qle_bool_iff in E. split; [apply Qle_refl|exact E].
  - assert (L : ~ a <= b) by (intro X; apply Qle_bool_iff in X; congruence).
    apply Qnot_le_lt in L. split; [apply Qlt_le_weak, L|apply Qle_refl].
Qed.

Lemma Qle_bool_false : forall a b, Qle_bool a b = false -> b < a.
Proof.
  intros a b H. apply Qnot_le_lt. intro X. apply Qle_bool_iff in X. congruence.
Qed.

Ltac qbool :=
  repeat match goal with
  | H : Qle_bool _ _ = true |- _ => apply Qle_bool_iff in H
  | H : Qle_bool _ _ = false |- _ => apply Qle_bool_false in H
  end.

Lemma py_max_comm : forall a b, py_max a b == py_max b a.
Proof.
  intros a b. unfold py_max, py_gt.
  destruct (Qle_bool b a) eqn:E1, (Qle_bool a b) eqn:E2; cbn; qbool; try reflexivity; lra.
Qed.

Lemma py_min_comm : forall a b, py_min a b == py_min b a.
Proof.
  intros a b. unfold py_min, py_gt.
  destruct (Qle_bool a b) eqn:E1, (Qle_bool b a) eqn:E2; cbn; qbool; try reflexivity; lra.
Qed.

Lemma Qle_bool_compat : forall a a' b b', a == a' -> b == b' -> Qle_bool a b = Qle_bool a' b'.
Proof.
  intros a a' b b' Ea Eb.
  destruct (Qle_bool a b) eqn:E1, (Qle_bool a' b') eqn:E2; try reflexivity.
  - apply Qle_bool_iff in E1. rewrite Ea, Eb in E1. apply Qle_bool_iff in E1. congruence.
  - apply Qle_bool_iff in E2. rewrite <- Ea, <- Eb in E2. apply Qle_bool_iff in E2. congruence.
Qed.

(** The arithmetic of [calculate_overlap] once the corners of the
    intersection and the two areas are known. *)
Lemma calculate_overlap_core : forall x1 y1 w1 h1 x2 y2 w2 h2,
  calculate_overlap (x1, y1, w1, h1) (x2, y2, w2, h2) =
  (let xi1 := py_max x1 x2 in let yi1 := py_max y1 y2 in
   let xi2 := py_min (x1 + w1) (x2 + w2) in let yi2 := py_min (y1 + h1) (y2 + h2) in
   if Qle_bool xi2 xi1 || Qle_bool yi2 yi1 then 0
   else let i := (xi2 - xi1) * (yi2 - yi1) in
        let u := w1 * h1 + w2 * h2 - i in
        if py_gt u 0 then i / u else 0).
Proof. reflexivity. Qed.

Lemma Qdiv_compat : forall a a' b b', a == a' -> b == b' -> a / b == a' / b'.
Proof. intros a a' b b' Ea Eb. rewrite Ea, Eb. reflexivity. Qed.

(** [calculate_overlap] does not depend on the order of its two boxes. *)
Theorem calculate_overlap_symmetric (bbox1 bbox2 : Q * Q * Q * Q) :
  calculate_overlap bbox1 bbox2 == calculate_overlap bbox2 bbox1.
Proof.
  destruct bbox1 as [[[x1 y1] w1] h1], bbox2 as [[[x2 y2] w2] h2].
  rewrite !calculate_overlap_core. cbv zeta.
  pose proof (py_max_comm x1 x2) as Ha. pose proof (py_max_comm y1 y2) as Hb.
  pose proof (py_min_comm (x1 + w1) (x2 + w2)) as Hc.
  pose proof (py_min_comm (y1 + h1) (y2 + h2)) as Hd.
  set (a := py_max x1 x2) in *. set (a' := py_max x2 x1) in *.
  set (b := py_max y1 y2) in *. set (b' := py_max y2 y1) in *.
  set (c := py_min (x1 + w1) (x2 + w2)) in *. set (c' := py_min (x2 + w2) (x1 + w1)) in *.
  set (d := py_min (y1 + h1) (y2 + h2)) in *. set (d' := py_min (y2 + h2) (y1 + h1)) in *.
  rewrite (Qle_bool_compat c c' a a' Hc Ha), (Qle_bool_compat d d' b b' Hd Hb).
  destruct (Qle_bool c' a' || Qle_bool d' b'); [reflexivity|].
  assert (Hu : w1 * h1 + w2 * h2 - (c - a) * (d - b) ==
               w2 * h2 + w1 * h1 - (c' - a') * (d' - b'))
    by (rewrite Ha, Hb, Hc, Hd; ring).
  unfold py_gt. rewrite (Qle_bool_compat _ _ 0 0 Hu (Qeq_refl 0)).
  destruct (Qle_bool (w2 * h2 + w1 * h1 - (c' - a') * (d' - b')) 0); [reflexivity|].
  cbn [negb]. apply Qdiv_compat; [rewrite Ha, Hb, Hc, Hd; reflexivity|exact Hu].
Qed.

(** [calculate_overlap] is a ratio in [0, 1], whatever the boxes (also with
    negative widths or heights). *)
Theorem calculate_overlap_range (bbox1 bbox2 : Q * Q * Q * Q) :
  0 <= calculate_overlap bbox1 bbox2 <= 1.
Proof.
  destruct bbox1 as [[[x1 y1] w1] h1], bbox2 as [[[x2 y2] w2] h2].
  rewrite calculate_overlap_core. cbv zeta.
  pose proof (py_max_bounds x1 x2) as Ha. pose proof (py_max_bounds y1 y2) as Hb.
  pose proof (py_min_bounds (x1 + w1) (x2 + w2)) as Hc.
  pose proof (py_min_bounds (y1 + h1) (y2 + h2)) as Hd.
  set (a := py_max x1 x2) in *. set (b := py_max y1 y2) in *.
  set (c := py_min (x1 + w1) (x2 + w2)) in *. set (d := py_min (y1 + h1) (y2 + h2)) in *.
  destruct (Qle_bool c a) eqn:E1; [cbn; lra|].
  destruct (Qle_bool d b) eqn:E2; [cbn; lra|].
  cbn [orb]. unfold py_gt.
  destruct (Qle_bool (w1 * h1 + w2 * h2 - (c - a) * (d - b)) 0) eqn:E3; cbn [negb]; [lra|].
  qbool.
  assert (I0 : 0 < (c - a) * (d - b)) by nra.
  assert (I1 : (c - a) * (d - b) <= w1 * h1) by nra.
  assert (I2 : (c - a) * (d - b) <= w2 * h2) by nra.
  split.
  - apply Qle_shift_div_l; [exact E3|]. lra.
  - apply Qle_shift_div_r; [exact E3|]. lra.
Qed.

(* ================================================================== *)
(** ** Removing overlapping regions *)

Lemma overlap_step_in : forall region1 filtered x,
  In x (overlap_step region1 filtered) -> x = region1 \/ In x filtered.
Proof.
  intros region1 filtered; induction filtered as [|r2 rest IH]; intros x H; cbn in H.
  - destruct H as [<-|[]]; left; reflexivity.
  - destruct (py_gt _ (1 # 2)); [destruct (py_gt _ _)|].
    + destruct H as [<-|H]; [left; reflexivity|right; right; exact H].
    + right; exact H.
    + destruct H as [<-|H]; [right; left; reflexivity|].
      destruct (IH x H) as [E|E]; [left; exact E|right; right; exact E].
Qed.

Lemma overlap_step_length : forall region1 filtered,
  (length (overlap_step region1 filtered) <= S (length filtered))%nat.
Proof.
  intros region1 filtered; induction filtered as [|r2 rest IH]; cbn; [lia|].
  destruct (py_gt _ (1 # 2)); [destruct (py_gt _ _)|]; cbn; lia.
Qed.

Lemma remove_loop_in : forall regions filtered x,
  In x (fold_left (fun f r => overlap_step r f) regions filtered) ->
  In x filtered \/ In x regions.
Proof.
  intros regions; induction regions as [|r rs IH]; intros filtered x H; cbn in H.
  - left; exact H.
  - destruct (IH _ _ H) as [H1|H1]; [|right; right; exact H1].
    destruct (overlap_step_in _ _ _ H1) as [<-|H2]; [right; left; reflexivity|left; exact H2].
Qed.

Lemma remove_loop_length : forall regions filtered,
  (length (fold_left (fun f r => overlap_step r f) regions filtered) <=
   length filtered + length regions)%nat.
Proof.
  intros regions; induction regions as [|r rs IH]; intros filtered; cbn; [lia|].
  specialize (IH (overlap_step r filtered)).
  pose proof (overlap_step_length r filtered). lia.
Qed.

Lemma overlap_step_apart : forall region1 filtered,
  (forall x, In x filtered -> calculate_overlap (rg_bbox region1) (rg_bbox x) <= 1 # 2) ->
  overlap_step region1 filtered = filtered ++ [region1].
Proof.
  intros region1 filtered; induction filtered as [|r2 rest IH]; intros H; cbn; [reflexivity|].
  unfold py_gt at 1.
  rewrite (proj2 (Qle_bool_iff _ _) (H r2 (or_introl eq_refl))). cbn [negb].
  rewrite IH; [reflexivity|]. intros x Hx; apply H; right; exact Hx.
Qed.

Lemma remove_loop_apart : forall regions filtered,
  (forall r x, In r regions -> In x filtered ->
     calculate_overlap (rg_bbox r) (rg_bbox x) <= 1 # 2) ->
  ForallOrdPairs (fun a b => calculate_overlap (rg_bbox b) (rg_bbox a) <= 1 # 2) regions ->
  fold_left (fun f r => overlap_step r f) regions filtered = filtered ++ regions.
Proof.
  intros regions; induction regions as [|r rs IH]; intros filtered H P; cbn.
  - rewrite app_nil_r; reflexivity.
  - inversion P as [|a l Fa Prs]; subst.
    rewrite overlap_step_apart by (intros x Hx; apply H; [left; reflexivity|exact Hx]).
    rewrite IH; [rewrite <- app_assoc; reflexivity| |exact Prs].
    intros r' x Hr' Hx. apply in_app_or in Hx as [Hx|[<-|[]]].
    + apply H; [right; exact Hr'|exact Hx].
    + exact (proj1 (Forall_forall _ _) Fa r' Hr').
Qed.

Lemma overlap_step_keeps : forall r region1 filtered,
  In r filtered -> (region1 = r \/ confidence region1 < confidence r) ->
  In r (overlap_step region1 filtered).
Proof.
  intros r region1 filtered; induction filtered as [|r2 rest IH]; intros Hin H1; [destruct Hin|].
  cbn. destruct (py_gt _ (1 # 2)).
  - destruct (py_gt (confidence region1) (confidence r2)) eqn:G.
    + destruct Hin as [<-|Hin]; [|right; exact Hin].
      destruct H1 as [<-|L]; [left; reflexivity|].
      unfold py_gt in G. apply negb_true_iff in G. qbool. lra.
    + exact Hin.
  - destruct Hin as [<-|Hin]; [left; reflexivity|right; exact (IH Hin H1)].
Qed.

Lemma overlap_step_enters : forall r filtered,
  (forall x, In x filtered -> x = r \/ confidence x < confidence r) ->
  In r (overlap_step r filtered).
Proof.
  intros r filtered; induction filtered as [|r2 rest IH]; intros H; cbn; [left; reflexivity|].
  destruct (py_gt _ (1 # 2)).
  - destruct (py_gt (confidence r) (confidence r2)) eqn:G; [left; reflexivity|].
    destruct (H r2 (or_introl eq_refl)) as [<-|L]; [left; reflexivity|].
    unfold py_gt in G. apply negb_false_iff in G. qbool. lra.
  - right. apply IH. intros x Hx; apply H; right; exact Hx.
Qed.

Lemma remove_loop_keeps : forall r regions filtered,
  (forall x, In x filtered -> x = r \/ confidence x < confidence r) ->
  (forall x, In x regions -> x = r \/ confidence x < confidence r) ->
  In r filtered \/ In r regions ->
  In r (fold_left (fun f r' => overlap_step r' f) regions filtered).
Proof.
  intros r regions; induction regions as [|a rs IH]; intros filtered Hf Hr Hin; cbn.
  - destruct Hin as [Hin|[]]; exact Hin.
  - apply IH.
    + intros x Hx. destruct (overlap_step_in _ _ _ Hx) as [->|Hx'];
        [apply Hr; left; reflexivity|apply Hf; exact Hx'].
    + intros x Hx; apply Hr; right; exact Hx.
    + destruct Hin as [Hin|[<-|Hin]].
      * left. apply overlap_step_keeps; [exact Hin|apply Hr; left; reflexivity].
      * left. apply overlap_step_enters. exact Hf.
      * right; exact Hin.
Qed.

(** [remove_overlapping_regions] only drops regions: its result holds regions
    of its input and is no longer than it. *)
Theorem remove_overlapping_regions_subset (regions : list region) :
  incl (remove_overlapping_regions regions) regions /\
  (length (remove_overlapping_regions regions) <= length regions)%nat.
Proof.
  split.
  - intros x Hx. destruct (remove_loop_in _ _ _ Hx) as [[]|H]; exact H.
  - exact (remove_loop_length regions []).
Qed.

(** When no region overlaps an earlier one by more than 0.5, the regions are
    returned unchanged, in order. *)
Theorem remove_overlapping_regions_apart (regions : list region)
    (Hapart : ForallOrdPairs
                (fun a b => calculate_overlap (rg_bbox b) (rg_bbox a) <= 1 # 2) regions) :
  remove_overlapping_regions regions = regions.
Proof.
  unfold remove_overlapping_regions.
  apply remove_loop_apart; [intros r x _ []|exact Hapart].
Qed.

(** A region whose confidence is higher than that of every other region is
    kept. *)
Theorem remove_overlapping_regions_keeps_most_confident (regions : list region) (r : region)
    (Hin : In r regions)
    (Hmax : forall x, In x regions -> x = r \/ confidence x < confidence r) :
  In r (remove_overlapping_regions regions).
Proof.
  unfold remove_overlapping_regions.
  apply remove_loop_keeps; [intros x []|exact Hmax|right; exact Hin].
Qed.

(* ================================================================== *)
(** ** [classify_image_type] *)

(** For a nonzero height: the result is one of ['logo'], ['small_logo'],
    ['banner'], ['image']; it is ['banner'] exactly when the area is at
    least 5000 and the aspect ratio exceeds 3; an area below 5000 always
    gives ['logo'] or ['small_logo']. *)
Theorem classify_image_type_by_size (width height : Z) (Hh : height <> 0%Z) :
  In (classify_image_type width height) ["logo"; "small_logo"; "banner"; "image"] /\
  (classify_image_type width height = "banner" <->
     (5000 <= width * height)%Z /\ 3 < inject_Z width / inject_Z height) /\
  ((width * height < 5000)%Z ->
     classify_image_type width height = "logo" \/
     classify_image_type width height = "small_logo").
Proof.
  unfold classify_image_type.
  rewrite (proj2 (Z.eqb_neq height 0) Hh).
  set (ar := inject_Z width / inject_Z height).
  unfold py_gt.
  destruct (Z.ltb_spec (width * height) 10000) as [A1|A1];
  destruct (Qle_bool ar (1 # 2)) eqn:B1;
  destruct (Qle_bool 3 ar) eqn:B2;
  destruct (Z.ltb_spec (width * height) 5000) as [A2|A2];
  destruct (Qle_bool ar 3) eqn:B3;
  cbn [negb andb]; qbool;
  (split; [cbn; tauto|split; [split; [intros H; first [discriminate | split; [lia|lra]]
                                      |intros [H1 H2]; first [reflexivity | exfalso; lia | exfalso; lra]]
                             |intros H; first [left; reflexivity | right; reflexivity | exfalso; lia]]]).
Qed.

(* ================================================================== *)
(** ** The View Results page *)

(** The grade never goes down when the percentage goes up. *)
Theorem grade_monotone (p p' : Q) (Hle : p <= p') :
  (grade_rank (grade_of p) <= grade_rank (grade_of p'))%nat.
Proof.
  unfold grade_of.
  destruct (Qle_bool 80 p) eqn:A1; [|destruct (Qle_bool 70 p) eqn:A2;
    [|destruct (Qle_bool 60 p) eqn:A3; [|destruct (Qle_bool 50 p) eqn:A4]]];
  (destruct (Qle_bool 80 p') eqn:B1; [|destruct (Qle_bool 70 p') eqn:B2;
    [|destruct (Qle_bool 60 p') eqn:B3; [|destruct (Qle_bool 50 p') eqn:B4]]]);
  cbn; try lia; qbool; lra.
Qed.

(* ================================================================== *)
(** ** [parse_generated_questions] *)

Lemma str_truthy_cons (c : ascii) (r : string) : str_truthy (String c r) = true.
Proof. reflexivity. Qed.

Lemma str_truthy_app_cons (x : string) (c : ascii) (y : string) :
  str_truthy (x ++ String c y) = true.
Proof. destruct x; reflexivity. Qed.

Lemma starts_question_truthy (s : string) :
  starts_question s = true -> str_truthy s = true.
Proof. destruct s; [discriminate|reflexivity]. Qed.

Lemma starts_question_app (s t : string) :
  starts_question s = true -> starts_question (s ++ t) = true.
Proof. destruct s; [discriminate|exact (fun H => H)]. Qed.

Lemma header_not_space (c : ascii) :
  is_ascii_digit c || Ascii.eqb c "Q"%char = true -> is_py_space c = false.
Proof.
  intros H. apply orb_true_iff in H as [H|H].
  - unfold is_ascii_digit in H. unfold is_py_space.
    apply andb_true_iff in H as [H1 H2].
    apply Nat.leb_le in H1. apply Nat.leb_le in H2.
    destruct (Nat.eqb_spec (nat_of_ascii c) 32); [lia|].
    destruct (Nat.leb_spec 9 (nat_of_ascii c)), (Nat.leb_spec (nat_of_ascii c) 13),
             (Nat.leb_spec 28 (nat_of_ascii c)), (Nat.leb_spec (nat_of_ascii c) 31);
      cbn; reflexivity || lia.
  - apply Ascii.eqb_eq in H. subst c. reflexivity.
Qed.

Lemma drop_spaces_app_last (c : ascii) (l : list ascii) :
  is_py_space c = false -> exists m, drop_spaces (l ++ [c]) = m ++ [c].
Proof.
  intros Hc. induction l as [|a l IH]; cbn.
  - rewrite Hc. exists []. reflexivity.
  - destruct (is_py_space a); [exact IH|]. exists (a :: l). reflexivity.
Qed.

Lemma strip_head (c : ascii) (r : string) :
  is_py_space c = false -> exists r', strip (String c r) = String c r'.
Proof.
  intros Hc. unfold strip. cbn [list_ascii_of_string drop_spaces]. rewrite Hc.
  cbn [rev]. destruct (drop_spaces_app_last c (rev (list_ascii_of_string r)) Hc) as [m Hm].
  rewrite Hm, rev_app_distr. cbn. exists (string_of_list_ascii (rev m)). reflexivity.
Qed.

Lemma strip_starts_question (s : string) :
  starts_question s = true -> starts_question (strip s) = true.
Proof.
  destruct s as [|c r]; [discriminate|]. intros H.
  destruct (strip_head c r (header_not_space c H)) as [r' ->]. exact H.
Qed.

Lemma split_on_nonempty (c : ascii) (s : string) : split_on c s <> [].
Proof.
  destruct s as [|d r]; cbn; [discriminate|].
  destruct (Ascii.eqb d c); [discriminate|]. destruct (split_on c r); discriminate.
Qed.

Lemma Forall_tl {A} (P : A -> Prop) (l : list A) : Forall P l -> Forall P (tl l).
Proof. intros H. destruct H; [constructor|assumption]. Qed.

(** From a question header on, every question appended starts with a header. *)
Lemma parse_loop_header (lines : list string) : forall cur qs,
  starts_question cur = true ->
  exists rest, parse_loop lines cur qs = qs ++ rest /\ Forall (fun q => starts_question q = true) rest.
Proof.
  induction lines as [|l ls IH]; intros cur qs Hcur; cbn.
  - rewrite (starts_question_truthy _ Hcur). exists [strip cur].
    split; [reflexivity|]. constructor; [exact (strip_starts_question _ Hcur)|constructor].
  - destruct (starts_question (strip l)) eqn:Hl.
    + rewrite (starts_question_truthy _ Hcur).
      destruct (IH (strip l) (qs ++ [strip cur]) Hl) as [rest [E F]].
      exists (strip cur :: rest). rewrite E, <- app_assoc. split; [reflexivity|].
      constructor; [exact (strip_starts_question _ Hcur)|exact F].
    + exact (IH _ qs (starts_question_app _ _ Hcur)).
Qed.

Lemma parse_loop_preamble (lines : list string) : forall cur qs,
  exists x rest, parse_loop lines cur qs = qs ++ x ++ rest /\ (length x <= 1)%nat /\
    Forall (fun q => starts_question q = true) rest.
Proof.
  induction lines as [|l ls IH]; intros cur qs; cbn.
  - destruct (str_truthy cur).
    + exists [strip cur], []. rewrite app_nil_r. split; [reflexivity|split; [cbn; lia|constructor]].
    + exists [], []. rewrite !app_nil_r. split; [reflexivity|split; [cbn; lia|constructor]].
  - destruct (starts_question (strip l)) eqn:Hl; [|exact (IH _ qs)].
    destruct (str_truthy cur).
    + destruct (parse_loop_header ls (strip l) (qs ++ [strip cur]) Hl) as [rest [E F]].
      exists [strip cur], rest. rewrite E, <- app_assoc. split; [reflexivity|split; [cbn; lia|exact F]].
    + destruct (parse_loop_header ls (strip l) qs Hl) as [rest [E F]].
      exists [], rest. rewrite E. split; [reflexivity|split; [cbn; lia|exact F]].
Qed.

Lemma parse_loop_count (lines : list string) : forall cur qs,
  str_truthy cur = true ->
  length (parse_loop lines cur qs) =
  (length qs + length (filter starts_question (map strip lines)) + 1)%nat.
Proof.
  induction lines as [|l ls IH]; intros cur qs Hcur; cbn.
  - rewrite Hcur, length_app. cbn. lia.
  - destruct (starts_question (strip l)) eqn:Hl; rewrite ?Hcur.
    + rewrite (IH _ _ (starts_question_truthy _ Hl)), length_app. cbn. lia.
    + rewrite (IH _ _ (str_truthy_app_cons _ _ _)). reflexivity.
Qed.

(** Every question after the first starts with a digit or ['Q']; so does
    the first when the first line is a header. *)
Theorem parse_generated_questions_headers (questions_text : string) :
  Forall (fun q => starts_question q = true) (tl (parse_generated_questions questions_text)) /\
  (starts_question (strip (hd "" (split_on newline questions_text))) = true ->
   Forall (fun q => starts_question q = true) (parse_generated_questions questions_text)).
Proof.
  unfold parse_generated_questions.
  pose proof (split_on_nonempty newline questions_text) as Hne.
  destruct (split_on newline questions_text) as [|l ls]; [contradiction|].
  split.
  - destruct (parse_loop_preamble (l :: ls) "" []) as [x [rest [E [Lx F]]]].
    rewrite E. cbn [app]. destruct x as [|a [|b x']]; cbn in Lx |- *.
    + exact (Forall_tl _ _ F).
    + exact F.
    + lia.
  - cbn [hd]. intros Hl. cbn. rewrite Hl.
    destruct (parse_loop_header ls (strip l) [] Hl) as [rest [E F]]. rewrite E. exact F.
Qed.

(** One question per header line (a stripped line starting with a digit or
    ['Q']), plus one for the text before the first header when the first line
    is not a header; in particular the list is never empty. *)
Theorem parse_generated_questions_count (questions_text : string) :
  let lines := map strip (split_on newline questions_text) in
  length (parse_generated_questions questions_text) =
  (length (filter starts_question lines) +
   (if starts_question (hd "" lines) then 0 else 1))%nat.
Proof.
  unfold parse_generated_questions. cbv zeta.
  pose proof (split_on_nonempty newline questions_text) as Hne.
  destruct (split_on newline questions_text) as [|l ls]; [contradiction|].
  cbn [parse_loop map hd filter].
  destruct (starts_question (strip l)) eqn:Hl.
  - rewrite (parse_loop_count _ _ _ (starts_question_truthy _ Hl)). cbn. lia.
  - rewrite (parse_loop_count _ _ _ (str_truthy_app_cons _ _ _)). cbn. lia.
Qed.

(* ================================================================== *)
(** ** The placeholder loop of [generate_template_based_pdf] *)

Lemma py_startswith_app (p q s : string) :
  py_startswith (p ++ q) s = true -> py_startswith p s = true.
Proof.
  revert s. induction p as [|a p IH]; intros s H; [reflexivity|].
  destruct s as [|b s]; [discriminate|]. cbn in H |- *.
  apply andb_true_iff in H as [H1 H2]. rewrite H1. exact (IH _ H2).
Qed.

Lemma py_contains_app (p q s : string) :
  py_contains p s = false -> py_contains (p ++ q) s = false.
Proof.
  induction s as [|c s IH]; intros H; cbn in H |- *;
    apply orb_false_iff in H as [H1 H2];
    (destruct (py_startswith (p ++ q) _) eqn:E;
     [rewrite (py_startswith_app _ _ _ E) in H1; discriminate|]).
  - reflexivity.
  - exact (IH H2).
Qed.

Lemma replace_first_absent (old new s : string) :
  py_contains old s = false -> replace_first old new s = s.
Proof.
  induction s as [|c s IH]; intros H; cbn in H |- *;
    apply orb_false_iff in H as [H1 H2]; rewrite H1; [reflexivity|].
  rewrite (IH H2). reflexivity.
Qed.

Lemma fill_placeholders_absent (questions : list string) : forall i content,
  py_contains placeholder_prefix content = false ->
  fill_placeholders questions i content = content.
Proof.
  induction questions as [|q qs IH]; intros i content H; [reflexivity|].
  cbn [fill_placeholders]. unfold numbered_placeholder, generic_placeholder.
  rewrite (py_contains_app _ _ _ H).
  rewrite (replace_first_absent _ _ _ (py_contains_app _ _ _ H)).
  exact (IH _ _ H).
Qed.

(** A template without ["[QUESTION_PLACEHOLDER"] is laid out unchanged: the
    generated questions are not placed anywhere. *)
Theorem template_without_placeholder_unchanged (template questions_text : string)
    (Hnone : py_contains placeholder_prefix template = false) :
  template_content template questions_text = template.
Proof.
  unfold template_content. apply fill_placeholders_absent. exact Hnone.
Qed.

(* ================================================================== *)
(** ** The report rows follow the questions *)

Section Frame.

(** A relation between an entry and its later versions that every grading
    update [graded] respects. *)
Variable R : entry -> entry -> Prop.
Hypothesis R_refl : forall e, R e e.
Hypothesis R_trans : forall a b c, R a b -> R b c -> R a c.
Hypothesis R_graded : forall e m fb sg, R e (graded e m fb sg).

Lemma update_first_frame : forall id (g : entry -> Q) fb sg d,
  Forall2 R d (update_first id (fun e => graded e (g e) fb sg) d).
Proof.
  intros id g fb sg d. eapply Forall2_weaken; [|apply update_first_spec].
  intros e e' [->|(_ & _ & ->)]; [apply R_refl|apply R_graded].
Qed.

Lemma reconcile_frame : forall rt items o d o' d' x,
  reconcile rt items o d = (o', d', x) -> Forall2 R d d'.
Proof.
  intros rt items; induction items as [|it items IH]; intros o d o' d' x H; simpl in H.
  - inversion H; subst; apply Forall2_refl_rel, R_refl.
  - destruct it; try (inversion H; subst; apply Forall2_refl_rel, R_refl).
    destruct (dict_lookup "question_id" kvs) as [q_id|];
      [|inversion H; subst; apply Forall2_refl_rel, R_refl].
    destruct (py_float rt _) as [marks|e]; [|inversion H; subst; apply Forall2_refl_rel, R_refl].
    refine (Forall2_trans_rel _ _ _ _ R_trans _ (IH _ _ _ _ _ H)).
    apply (update_first_frame _ (fun _ => marks)).
Qed.

Lemma fallback_frame : forall sugg S o d o' d',
  fallback sugg S o d = Some (o', d') -> Forall2 R d d'.
Proof.
  intros sugg S; induction S as [|q S IH]; intros o d o' d' H; simpl in H.
  - inversion H; subst; apply Forall2_refl_rel, R_refl.
  - destruct (fallback_marks q) as [fm|]; [|discriminate].
    refine (Forall2_trans_rel _ _ _ _ R_trans _ (IH _ _ _ _ H)).
    apply (update_first_frame _ (fun _ => fm)).
Qed.

Lemma ai_step_frame : forall rt reply S o d o' d',
  ai_step rt reply S o d = Some (o', d') -> Forall2 R d d'.
Proof.
  intros rt reply S o d o' d' H. unfold ai_step in H.
  destruct reply as [text|e|e].
  - destruct (has_braces (strip text)).
    + destruct (rt_loads rt _) as [v|].
      * destruct v; try discriminate.
        destruct (py_iter _) as [items|]; [|discriminate].
        destruct (reconcile rt items o d) as [[o1 d1] [x|]] eqn:Rc.
        -- apply reconcile_frame in Rc.
           destruct x; try discriminate;
             (eapply Forall2_trans_rel; [exact R_trans| exact Rc| eapply fallback_frame; exact H]).
        -- inversion H; subst. eapply reconcile_frame; exact Rc.
      * eapply fallback_frame; exact H.
    + eapply fallback_frame; exact H.
  - destruct e; try discriminate; eapply fallback_frame; exact H.
  - destruct e; try discriminate; eapply fallback_frame; exact H.
Qed.

Lemma evaluate_frame : forall rt qd ua reply r,
  evaluate_exam_answers rt qd ua reply = Some r ->
  exists questions total obtained d0,
    questions_of qd = Some questions /\
    first_pass rt ua questions 0%Q 0%Q [] = Some (total, obtained, d0) /\
    Forall2 R d0 (r_evaluations r).
Proof.
  intros rt qd ua reply r H.
  destruct (evaluate_inv _ _ _ _ _ H) as (qs & t & o & d0 & o' & d' & Q & F & B & ->).
  exists qs, t, o, d0; split; [exact Q| split; [exact F|]]. simpl.
  destruct B as [(_ & _ & ->)|(_ & A)].
  - apply Forall2_refl_rel, R_refl.
  - eapply ai_step_frame; exact A.
Qed.

End Frame.

Lemma question_entry_answer : forall rt ua q e tm m,
  question_entry rt ua q = Some (e, tm, m) ->
  e_user_answer e = strip (dict_get ua (rt_str rt (e_question_id e)) "").
Proof.
  intros rt ua q e tm m H. unfold question_entry in H.
  destruct q as [| | | | | |kvs]; try discriminate.
  destruct (dict_lookup "id" kvs) as [q_id|]; [|discriminate].
  destruct (dict_lookup "type" kvs) as [q_type|]; [|discriminate].
  destruct (dict_lookup "marks" kvs) as [mv|]; [|discriminate].
  destruct (dict_lookup "question" kvs) as [q_text|]; [|discriminate].
  destruct (py_num mv) as [q_marks|]; [|discriminate].
  destruct (is_mcq q_type).
  - destruct (dict_get kvs "correct_answer" (JStr "")) as [| | | |ca| |]; try discriminate.
    destruct (str_truthy (strip ca)); inversion H; reflexivity.
  - inversion H; reflexivity.
Qed.

Lemma Forall2_map_eq : forall {A B} (f : A -> B) l l',
  Forall2 (fun a a' => f a' = f a) l l' -> map f l' = map f l.
Proof.
  intros A B f l l' F; induction F as [|a a' l l' H F IH]; [reflexivity|].
  cbn. rewrite H, IH. reflexivity.
Qed.

(** The report has one row per question, in the order of the question set:
    the [question_id] of the rows are the question ids, and each row's
    [user_answer] is the stripped answer submitted under [str(id)] (empty
    when there is none), whatever the grading reply. *)
Theorem evaluations_follow_questions (rt : Runtime) (qd : json) (ua : list (string * string))
    (reply : model_reply) (r : eval_result) (questions : list json)
    (Hev : evaluate_exam_answers rt qd ua reply = Some r)
    (Hqs : questions_of qd = Some questions) :
  map e_question_id (r_evaluations r) = question_ids questions /\
  map e_user_answer (r_evaluations r) =
    map (fun i => strip (dict_get ua (rt_str rt i) "")) (question_ids questions).
Proof.
  destruct (evaluate_frame
              (fun e e' => e_question_id e' = e_question_id e /\ e_user_answer e' = e_user_answer e)
              ltac:(intros; split; reflexivity)
              ltac:(intros a b c [H1 H2] [H3 H4]; split; congruence)
              ltac:(intros; split; reflexivity)
              _ _ _ _ _ Hev) as (qs & t & o & d0 & Q & F & Fr).
  rewrite Hqs in Q; inversion Q; subst qs.
  destruct (first_pass_entries _ _ _ _ _ _ _ _ _ F) as (es & E & Fes).
  cbn in E; subst es.
  rewrite (first_pass_ids _ _ _ _ Fes).
  split.
  - apply Forall2_map_eq. eapply Forall2_weaken; [|exact Fr]. intros e e' [H _]; exact H.
  - rewrite (Forall2_map_eq e_user_answer d0 (r_evaluations r))
      by (eapply Forall2_weaken; [|exact Fr]; intros e e' [_ H]; exact H).
    rewrite map_map. clear Fr Hev Hqs Q F.
    induction Fes as [|q e qs es (tm & m & H) Fes IH]; [reflexivity|].
    cbn. rewrite (question_entry_answer _ _ _ _ _ _ H), IH. reflexivity.
Qed.

(* ================================================================== *)
(** ** The answers collected by the exam form *)

Lemma dict_set_keys_in : forall {A} k (v : A) kvs x,
  In x (map fst (dict_set k v kvs)) -> x = k \/ In x (map fst kvs).
Proof.
  intros A k v kvs; induction kvs as [|[k' v'] rest IH]; intros x H; cbn in H.
  - destruct H as [<-|[]]; left; reflexivity.
  - destruct (String.eqb k k'); cbn in H.
    + right; exact H.
    + destruct H as [<-|H]; [right; left; reflexivity|].
      destruct (IH _ H) as [E|E]; [left; exact E|right; right; exact E].
Qed.

Lemma dict_set_nodup : forall {A} k (v : A) kvs,
  NoDup (map fst kvs) -> NoDup (map fst (dict_set k v kvs)).
Proof.
  intros A k v kvs; induction kvs as [|[k' v'] rest IH]; intros H; cbn in H |- *.
  - constructor; [intros []|constructor].
  - inversion H as [|x l Hn Hr]; subst.
    destruct (String.eqb_spec k k'); cbn; constructor; try exact Hr; try exact Hn.
    + intros Hin. destruct (dict_set_keys_in _ _ _ _ Hin) as [E|E]; [congruence|exact (Hn E)].
    + exact (IH Hr).
Qed.

Lemma dict_set_length : forall {A} k (v : A) kvs,
  (length (dict_set k v kvs) <= S (length kvs))%nat.
Proof.
  intros A k v kvs; induction kvs as [|[k' v'] rest IH]; cbn; [lia|].
  destruct (String.eqb k k'); cbn; lia.
Qed.

Lemma collect_dup_later : forall rt l q w rest keys acc k,
  widget_key rt q = Some k -> In k keys ->
  collect_form_answers rt (l ++ (q, w) :: rest) keys acc = None.
Proof.
  intros rt l q w rest; induction l as [|[q0 w0] l IH]; intros keys acc k Hk Hin.
  - unfold widget_key in Hk. cbn [app collect_form_answers].
    destruct (py_index q "id") as [q_id|]; [|discriminate].
    destruct (py_index q "type") as [q_type|]; [|discriminate].
    destruct (py_index q "question"); [|discriminate].
    destruct (py_index q "marks"); [|discriminate].
    destruct (widget_shown q q_type); [|discriminate].
    injection Hk as <-.
    assert (E : existsb (String.eqb ("q_" ++ rt_str rt q_id)) keys = true).
    { apply existsb_exists. exists ("q_" ++ rt_str rt q_id)%string.
      split; [exact Hin|apply String.eqb_refl]. }
    rewrite E. reflexivity.
  - cbn [app collect_form_answers].
    destruct (py_index q0 "id") as [q_id|]; [|reflexivity].
    destruct (py_index q0 "type") as [q_type|]; [|reflexivity].
    destruct (py_index q0 "question"); [|reflexivity].
    destruct (py_index q0 "marks"); [|reflexivity].
    destruct (_ && _); [reflexivity|].
    apply (IH _ _ k Hk). destruct (widget_shown q0 q_type); [right|]; exact Hin.
Qed.

Lemma collect_dup : forall rt l1 q1 w1 l2 q2 w2 l3 keys acc k,
  widget_key rt q1 = Some k -> widget_key rt q2 = Some k ->
  collect_form_answers rt (l1 ++ (q1, w1) :: l2 ++ (q2, w2) :: l3) keys acc = None.
Proof.
  intros rt l1 q1 w1 l2 q2 w2 l3; induction l1 as [|[q0 w0] l1 IH];
    intros keys acc k H1 H2.
  - pose proof H1 as K1. unfold widget_key in K1. cbn [app collect_form_answers].
    destruct (py_index q1 "id") as [q_id|]; [|discriminate].
    destruct (py_index q1 "type") as [q_type|]; [|discriminate].
    destruct (py_index q1 "question"); [|discriminate].
    destruct (py_index q1 "marks"); [|discriminate].
    destruct (widget_shown q1 q_type); [|discriminate].
    injection K1 as <-. cbn [andb].
    destruct (existsb _ _); [reflexivity|].
    apply (collect_dup_later _ _ _ _ _ _ _ _ H2). left. reflexivity.
  - cbn [app collect_form_answers].
    destruct (py_index q0 "id") as [q_id|]; [|reflexivity].
    destruct (py_index q0 "type") as [q_type|]; [|reflexivity].
    destruct (py_index q0 "question"); [|reflexivity].
    destruct (py_index q0 "marks"); [|reflexivity].
    destruct (_ && _); [reflexivity|].
    exact (IH _ _ k H1 H2).
Qed.

Lemma questions_of_truthy : forall qd questions,
  questions_of qd = Some questions -> json_truthy qd = true.
Proof.
  intros qd questions H. unfold questions_of in H.
  destruct qd as [| | | | | |kvs]; try discriminate.
  destruct kvs; [discriminate|reflexivity].
Qed.

(** Two questions of the form whose widgets get the same key [f"q_{q_id}"]
    (equal ids, or ids such as [1] and ["1"] with the same [str]) make the
    submission crash with Streamlit's duplicate widget key error: the session
    is unchanged and nothing is evaluated. *)
Theorem duplicate_widget_key_crashes (rt : Runtime) (s : session)
    (widgets : list (option string)) (reply : model_reply) (qd : json)
    (questions : list json) (i j : nat) (qi qj : json) (wi wj : option string) (k : string)
    (Hqd : s_questions_data s = Some qd)
    (Hqs : questions_of qd = Some questions)
    (Hprog : s_exam_submitted s = false)
    (Hij : (i < j)%nat)
    (Hi : nth_error (combine questions widgets) i = Some (qi, wi))
    (Hj : nth_error (combine questions widgets) j = Some (qj, wj))
    (Hki : widget_key rt qi = Some k)
    (Hkj : widget_key rt qj = Some k) :
  submit_exam rt s widgets reply = (s, [EvCrash]).
Proof.
  destruct (nth_error_split _ _ Hj) as (L & l3 & EL & LenL).
  rewrite EL, nth_error_app1 in Hi by lia.
  destruct (nth_error_split _ _ Hi) as (l1 & l2 & E1 & _).
  unfold submit_exam. rewrite Hqd, (questions_of_truthy _ _ Hqs), Hqs. cbn [negb].
  destruct (negb (forallb _ questions)); [reflexivity|].
  rewrite Hprog, EL, E1, <- app_assoc. cbn [app].
  rewrite (collect_dup rt l1 qi wi l2 qj wj l3 [] [] k Hki Hkj). reflexivity.
Qed.

(* ================================================================== *)
(** ** From the radio selection to the MCQ mark *)

Lemma drop_spaces_head : forall l,
  drop_spaces l = [] \/ exists c r, drop_spaces l = c :: r /\ is_py_space c = false.
Proof.
  induction l as [|a l IH]; cbn; [left; reflexivity|].
  destruct (is_py_space a) eqn:E; [exact IH|]. right; exists a, l; split; [reflexivity|exact E].
Qed.

Lemma drop_spaces_fix : forall l,
  (l = [] \/ exists c r, l = c :: r /\ is_py_space c = false) -> drop_spaces l = l.
Proof.
  intros l [->|(c & r & -> & E)]; cbn; [reflexivity|]. rewrite E. reflexivity.
Qed.

Lemma list_string_list : forall l, list_ascii_of_string (string_of_list_ascii l) = l.
Proof. induction l as [|a l IH]; cbn; [reflexivity|]. rewrite IH. reflexivity. Qed.

(** [s.strip().strip() == s.strip()] *)
Lemma strip_idem : forall s, strip (strip s) = strip s.
Proof.
  intros s.
  assert (Hs : strip s = string_of_list_ascii
                 (rev (drop_spaces (rev (drop_spaces (list_ascii_of_string s))))))
    by reflexivity.
  rewrite Hs. unfold strip. rewrite list_string_list.
  destruct (drop_spaces_head (list_ascii_of_string s)) as [E|(c & r & E & Hc)];
    rewrite E; [reflexivity|].
  cbn [rev].
  destruct (drop_spaces_app_last c (rev r) Hc) as [m Hm]. rewrite Hm.
  rewrite rev_app_distr. cbn [rev app].
  rewrite (drop_spaces_fix (c :: rev m)) by (right; exists c, (rev m); split; [reflexivity|exact Hc]).
  assert (Hf : drop_spaces (m ++ [c]) = m ++ [c])
    by (rewrite <- Hm; apply drop_spaces_fix, drop_spaces_head).
  cbn [rev]. rewrite rev_involutive, Hf, rev_app_distr. reflexivity.
Qed.

Lemma dict_lookup_set_same : forall {A} k (v : A) kvs, dict_lookup k (dict_set k v kvs) = Some v.
Proof.
  intros A k v kvs; induction kvs as [|[k' v'] rest IH]; cbn.
  - rewrite String.eqb_refl. reflexivity.
  - destruct (String.eqb_spec k k') as [->|N]; cbn.
    + rewrite String.eqb_refl. reflexivity.
    + rewrite (proj2 (String.eqb_neq k k') N). exact IH.
Qed.

Lemma dict_lookup_set_other : forall {A} k k' (v : A) kvs,
  k <> k' -> dict_lookup k (dict_set k' v kvs) = dict_lookup k kvs.
Proof.
  intros A k k' v kvs N; induction kvs as [|[k2 v2] rest IH]; cbn.
  - rewrite (proj2 (String.eqb_neq k k') N). reflexivity.
  - destruct (String.eqb_spec k' k2) as [->|N2]; cbn.
    + rewrite (proj2 (String.eqb_neq k k2) N). reflexivity.
    + destruct (String.eqb k k2); [reflexivity|exact IH].
Qed.

Lemma collect_form_answers_app : forall rt l1 l2 keys acc fa,
  collect_form_answers rt (l1 ++ l2) keys acc = Some fa ->
  exists keys' mid, collect_form_answers rt l1 keys acc = Some mid /\
                    collect_form_answers rt l2 keys' mid = Some fa.
Proof.
  intros rt l1; induction l1 as [|[question w] l1 IH]; intros l2 keys acc fa H.
  - exists keys, acc. split; [reflexivity|exact H].
  - cbn [app collect_form_answers] in H |- *.
    destruct (py_index question "id"); [|discriminate].
    destruct (py_index question "type"); [|discriminate].
    destruct (py_index question "question"); [|discriminate].
    destruct (py_index question "marks"); [|discriminate].
    destruct (_ && _); [discriminate|].
    exact (IH _ _ _ _ H).
Qed.

Lemma collect_form_answers_other : forall rt k l keys acc fa,
  (forall question w q_id, In (question, w) l -> py_index question "id" = Some q_id ->
     rt_str rt q_id <> k) ->
  collect_form_answers rt l keys acc = Some fa -> dict_lookup k fa = dict_lookup k acc.
Proof.
  intros rt k l; induction l as [|[question w] l IH]; intros keys acc fa Hk H; simpl in H.
  - inversion H; reflexivity.
  - destruct (py_index question "id") as [q_id|] eqn:I; [|discriminate].
    destruct (py_index question "type") as [q_type|]; [|discriminate].
    destruct (py_index question "question"); [|discriminate].
    destruct (py_index question "marks"); [|discriminate].
    assert (Hne : rt_str rt q_id <> k) by exact (Hk question w q_id (or_introl eq_refl) I).
    assert (Hl : forall question w q_id, In (question, w) l -> py_index question "id" = Some q_id ->
                   rt_str rt q_id <> k)
      by (intros q' w' i' Hin; apply (Hk q' w' i'); right; exact Hin).
    destruct (_ && _); [discriminate|].
    destruct (is_mcq q_type);
      [destruct (json_truthy _); [destruct w as [ua|]; [destruct (str_truthy ua)|]|]
      |destruct w as [a|]; [destruct (str_truthy a && str_truthy (strip a))|]];
      rewrite (IH _ _ _ Hl H); try reflexivity;
      apply dict_lookup_set_other; intros E; apply Hne; symmetry; exact E.
Qed.

Lemma nth_error_combine_l : forall {A B} (l : list A) (l' : list B) n a b,
  nth_error (combine l l') n = Some (a, b) -> nth_error l n = Some a.
Proof.
  intros A B l; induction l as [|x l IH]; intros l' n a b H; [destruct n; discriminate|].
  destruct l' as [|y l']; [destruct n; discriminate|].
  destruct n as [|n]; cbn in H |- *; [inversion H; reflexivity|exact (IH _ _ _ _ H)].
Qed.

Lemma nth_error_combine_intro : forall {A B} (l : list A) (l' : list B) n a b,
  nth_error l n = Some a -> nth_error l' n = Some b -> nth_error (combine l l') n = Some (a, b).
Proof.
  intros A B l; induction l as [|x l IH]; intros l' n a b H1 H2; [destruct n; discriminate|].
  destruct l' as [|y l']; [destruct n; discriminate|].
  destruct n as [|n]; cbn in H1, H2 |- *; [inversion H1; inversion H2; reflexivity|exact (IH _ _ _ _ H1 H2)].
Qed.

(** When a later question never shares the [str(id)] of question [i], the
    form answer stored under that key is the letter part of the option
    selected for question [i]. *)
Lemma collect_form_answers_mcq : forall rt questions widgets i kvs opt q_id fa,
  nth_error questions i = Some (JObj kvs) ->
  nth_error widgets i = Some (Some opt) ->
  dict_lookup "id" kvs = Some q_id ->
  dict_lookup "type" kvs = Some (JStr "mcq") ->
  json_truthy (dict_get kvs "options" (JArr [])) = true ->
  str_truthy opt = true ->
  (forall j q' id', (i < j)%nat -> nth_error questions j = Some q' ->
     py_index q' "id" = Some id' -> rt_str rt id' <> rt_str rt q_id) ->
  collect_form_answers rt (combine questions widgets) [] [] = Some fa ->
  dict_lookup (rt_str rt q_id) fa = Some (strip (split_head ")"%char opt)).
Proof.
  intros rt questions widgets i kvs opt q_id fa Hq Hw Hid Htype Hopt Hsel Hdist C.
  pose proof (nth_error_combine_intro _ _ _ _ _ Hq Hw) as Hc.
  destruct (nth_error_split _ _ Hc) as (l1 & l2 & Ecomb & Len).
  rewrite Ecomb in C.
  destruct (collect_form_answers_app _ _ _ _ _ _ C) as (keys & mid & _ & C2).
  cbn [collect_form_answers py_index] in C2.
  rewrite Hid, Htype in C2.
  destruct (dict_lookup "question" kvs); [|discriminate].
  destruct (dict_lookup "marks" kvs); [|discriminate].
  destruct (_ && _); [discriminate|].
  cbn [is_mcq String.eqb Ascii.eqb Bool.eqb andb question_options] in C2.
  rewrite Hopt, Hsel in C2.
  assert (Hl2 : forall q' w' id', In (q', w') l2 -> py_index q' "id" = Some id' ->
                  rt_str rt id' <> rt_str rt q_id).
  { intros q' w' id' Hin Hid'.
    destruct (In_nth_error _ _ Hin) as [n Hn].
    apply (Hdist (S i + n)%nat q' id'); [lia| |exact Hid'].
    apply (nth_error_combine_l _ widgets _ _ w'). rewrite Ecomb.
    rewrite nth_error_app2 by lia. rewrite Len.
    replace (S i + n - i)%nat with (S n) by lia. exact Hn. }
  rewrite (collect_form_answers_other rt (rt_str rt q_id) l2 _ _ fa Hl2 C2).
  apply dict_lookup_set_same.
Qed.

(** Selecting, for an MCQ whose [correct_answer] is non-empty after
    stripping, an option whose text before the first [')'] matches the
    correct answer (stripped, in any case) gives the question its full marks
    in the result of a successful submission, provided no later question has
    the same [str(id)]. *)
Theorem selected_option_graded (rt : Runtime) (s s' : session)
    (widgets : list (option string)) (reply : model_reply) (evs : list event)
    (qd : json) (questions : list json) (i : nat) (kvs : list (string * json))
    (q_id mv : json) (q_marks : Q) (ca opt : string)
    (Hqd : s_questions_data s = Some qd)
    (Hqs : questions_of qd = Some questions)
    (Hq : nth_error questions i = Some (JObj kvs))
    (Hw : nth_error widgets i = Some (Some opt))
    (Hid : dict_lookup "id" kvs = Some q_id)
    (Htype : dict_lookup "type" kvs = Some (JStr "mcq"))
    (Hmarks : dict_lookup "marks" kvs = Some mv)
    (Hnum : py_num mv = Some q_marks)
    (Hca : dict_get kvs "correct_answer" (JStr "") = JStr ca)
    (Hdef : str_truthy (strip ca) = true)
    (Hopt : json_truthy (dict_get kvs "options" (JArr [])) = true)
    (Hsel : str_truthy opt = true)
    (Hmatch : upper (strip (split_head ")"%char opt)) = upper (strip ca))
    (Hdist : forall j q' id', (i < j)%nat -> nth_error questions j = Some q' ->
               py_index q' "id" = Some id' -> rt_str rt id' <> rt_str rt q_id)
    (Hrun : submit_exam rt s widgets reply = (s', evs))
    (Hok : In EvSuccess evs) :
  exists r e, s_evaluation_result s' = Some r /\
    nth_error (r_evaluations r) i = Some e /\
    e_marks_obtained e = Some q_marks /\ e_is_correct e = Some true.
Proof.
  unfold submit_exam in Hrun. rewrite Hqd in Hrun.
  destruct (negb (json_truthy qd)); [inversion Hrun; subst; destruct Hok|].
  rewrite Hqs in Hrun.
  destruct (negb (forallb _ questions)); [inversion Hrun; subst; cbn in Hok; intuition discriminate|].
  destruct (s_exam_submitted s); [inversion Hrun; subst; destruct Hok|].
  destruct (collect_form_answers rt (combine questions widgets) [] []) as [fa|] eqn:C;
    [|inversion Hrun; subst; cbn in Hok; intuition discriminate].
  destruct (Nat.eqb (length fa) 0); [inversion Hrun; subst; cbn in Hok; intuition discriminate|].
  destruct (evaluate_exam_answers rt qd fa reply) as [r|] eqn:Ev;
    [|inversion Hrun; subst; cbn in Hok; intuition discriminate].
  inversion Hrun; subst s' evs; clear Hrun Hok.
  pose proof (collect_form_answers_mcq _ _ _ _ _ _ _ _ Hq Hw Hid Htype Hopt Hsel Hdist C) as L.
  exists r.
  destruct (evaluate_keep _ _ _ _ _ Ev) as (qs & t & o & d0 & Q & F & K).
  rewrite Hqs in Q; inversion Q; subst qs.
  destruct (first_pass_entries _ _ _ _ _ _ _ _ _ F) as (es & E & Fes).
  cbn in E; subst es.
  destruct (Forall2_nth_error_l _ _ _ _ _ Fes Hq) as (e0 & N0 & tm & m & HQ).
  unfold question_entry in HQ. rewrite Hid, Htype, Hmarks in HQ.
  destruct (dict_lookup "question" kvs) as [q_text|]; [|discriminate].
  rewrite Hnum in HQ. cbn in HQ. rewrite Hca, Hdef in HQ.
  unfold dict_get in HQ. rewrite L, strip_idem, Hmatch, String.eqb_refl in HQ.
  inversion HQ; subst e0; clear HQ.
  destruct (Forall2_nth_error_l _ _ _ _ _ K N0) as (e & Ne & Ke).
  rewrite Ke in Ne by reflexivity.
  eexists. split; [reflexivity|]. split; [exact Ne|]. cbn. subst. split; reflexivity.
Qed.

(* ================================================================== *)
(** ** Concrete runs of the extra properties *)

Lemma remove_overlapping_regions_apart_witness :
  remove_overlapping_regions [demo_region 0 0 10 10 (8 # 10); demo_region 20 0 10 10 (9 # 10)] =
  [demo_region 0 0 10 10 (8 # 10); demo_region 20 0 10 10 (9 # 10)].
Proof.
  apply remove_overlapping_regions_apart.
  repeat constructor. apply Qle_bool_iff. vm_compute. reflexivity.
Defined.

Lemma remove_overlapping_regions_keeps_most_confident_witness :
  In (demo_region 1 0 10 10 (9 # 10))
     (remove_overlapping_regions [demo_region 0 0 10 10 (1 # 2); demo_region 1 0 10 10 (9 # 10)]).
Proof.
  apply remove_overlapping_regions_keeps_most_confident.
  - right; left; reflexivity.
  - intros x [<-|[<-|[]]].
    + right. vm_compute. reflexivity.
    + left. reflexivity.
Defined.

Lemma classify_image_type_by_size_witness :
  classify_image_type 400 100 = "banner".
Proof.
  assert (Hh : (100 <> 0)%Z) by discriminate.
  apply (proj2 (proj1 (proj2 (classify_image_type_by_size 400 100 Hh)))).
  split; [lia|vm_compute; reflexivity].
Defined.

Lemma grade_monotone_witness :
  (grade_rank (grade_of 65) <= grade_rank (grade_of 85))%nat.
Proof.
  apply (grade_monotone 65 85). apply Qle_bool_iff. reflexivity.
Defined.

Lemma parse_generated_questions_headers_witness :
  Forall (fun q => starts_question q = true)
    (parse_generated_questions ("1. What?" ++ String newline "Q2 Why?")).
Proof.
  apply (proj2 (parse_generated_questions_headers ("1. What?" ++ String newline "Q2 Why?"))).
  vm_compute. reflexivity.
Defined.

Lemma template_without_placeholder_unchanged_witness :
  template_content "Exam paper" "1. What?" = "Exam paper".
Proof.
  apply template_without_placeholder_unchanged. vm_compute. reflexivity.
Defined.

Lemma evaluations_follow_questions_witness :
  match evaluate_exam_answers demo_rt demo_qd demo_answers (CallRaises ValueError) with
  | Some r => map e_question_id (r_evaluations r) = [JInt 1; JInt 2]
  | None => False
  end.
Proof.
  destruct (evaluate_exam_answers demo_rt demo_qd demo_answers (CallRaises ValueError))
    as [r|] eqn:E; [|vm_compute in E; discriminate].
  exact (proj1 (evaluations_follow_questions demo_rt demo_qd demo_answers _ r
                  [JObj demo_mcq; JObj demo_short] E eq_refl)).
Defined.

(** The demo MCQ with id [1] and a short question with id ["1"]. *)
Lemma duplicate_widget_key_crashes_witness :
  submit_exam demo_rt demo_dup_session [Some "C) gravity"; Some "gravity"] (Reply "") =
    (demo_dup_session, [EvCrash]).
Proof.
  apply (duplicate_widget_key_crashes demo_rt demo_dup_session
           [Some "C) gravity"; Some "gravity"] (Reply "") demo_dup_qd
           [JObj demo_mcq; JObj [("id", JStr "1"); ("type", JStr "short");
                                 ("question", JStr "Why do things fall?"); ("marks", JInt 3)]]
           0 1 (JObj demo_mcq)
           (JObj [("id", JStr "1"); ("type", JStr "short");
                  ("question", JStr "Why do things fall?"); ("marks", JInt 3)])
           (Some "C) gravity") (Some "gravity") "q_1"); try reflexivity; lia.
Defined.

Lemma selected_option_graded_witness :
  exists r e,
    s_evaluation_result
      (fst (submit_exam demo_rt demo_session [Some "C) gravity"; Some "gravity pulls"]
              (CallRaises ValueError))) = Some r /\
    nth_error (r_evaluations r) 0 = Some e /\
    e_marks_obtained e = Some (inject_Z 1) /\ e_is_correct e = Some true.
Proof.
  apply (selected_option_graded demo_rt demo_session
           (fst (submit_exam demo_rt demo_session [Some "C) gravity"; Some "gravity pulls"]
                   (CallRaises ValueError)))
           [Some "C) gravity"; Some "gravity pulls"] (CallRaises ValueError)
           (snd (submit_exam demo_rt demo_session [Some "C) gravity"; Some "gravity pulls"]
                   (CallRaises ValueError)))
           demo_qd [JObj demo_mcq; JObj demo_short] 0 demo_mcq (JInt 1) (JInt 1)
           (inject_Z 1) "C" "C) gravity");
    try reflexivity.
  - intros j q' id' Hj Hn Hid.
    destruct j as [|[|j]]; [lia| |destruct j; discriminate].
    cbn in Hn. inversion Hn; subst q'. cbn in Hid. inversion Hid; subst id'.
    vm_compute. discriminate.
  - vm_compute. right; right; left; reflexivity.
Defined.
